(** * NSGA-III (jmetal/algorithm/multiobjective/nsgaiii.py)

    A shallow embedding of the [NSGAIII] class: the reference point
    generator, the constructor's population sizing, the replacement policy
    and result extraction.

    Conventions.
    - Python [int] is [Z].
    - Python's true division [a / b] on ints yields a float; it is modelled
      by the exact rational quotient in lowest terms ([Q] after [Qred]), and
      raises [ZeroDivisionError] when [b = 0].  Rounding of binary floating
      point is not modelled, so the properties of coordinates are stated
      through the division itself (a coordinate is what [n / total]
      returns), by order or by membership, which rounding preserves, and
      not through sums or products of quotients.
    - Exceptions are the [Raise] outcome; recursion that Rocq cannot see to
      be structural is driven by a [nat] fuel, with [OutOfFuel] as a third
      outcome that the totality lemmas rule out. *)

From Stdlib Require Import ZArith QArith Qreduction List Lia Bool Arith Permutation.
Import ListNotations.

Local Open Scope Z_scope.

(** ** Outcomes of Python computations *)

Inductive exn : Type :=
| ZeroDivisionError
| IndexError
| InvalidRank (rank : Z)
| CollaboratorError.

Inductive outcome (A : Type) : Type :=
| Ok (a : A)
| Raise (e : exn)
| OutOfFuel.

Arguments Ok {A} a.
Arguments Raise {A} e.
Arguments OutOfFuel {A}.

Definition bind {A B : Type} (m : outcome A) (k : A -> outcome B) : outcome B :=
  match m with
  | Ok a => k a
  | Raise e => Raise e
  | OutOfFuel => OutOfFuel
  end.

Notation "x <- m ;; k" := (bind m (fun x => k))
  (at level 61, m at next level, right associativity).
Notation "' pat <- m ;; k" := (bind m (fun x => match x with pat => k end))
  (at level 61, pat pattern, m at next level, right associativity).

(** ** Python primitives used by the module *)

Module Py.

(** [len(l)] *)
Definition len {A : Type} (l : list A) : Z := Z.of_nat (length l).

(** [range(n)]: [0, 1, ..., n-1], empty when [n <= 0]. *)
Definition range (n : Z) : list Z := map Z.of_nat (seq 0 (Z.to_nat n)).

(** [a / b] on ints. *)
Definition truediv (a b : Z) : outcome Q :=
  if b =? 0 then Raise ZeroDivisionError
  else Ok (Qred (inject_Z a / inject_Z b)).

(** [[x] * n] *)
Definition replicate {A : Type} (x : A) (n : Z) : list A :=
  repeat x (Z.to_nat n).

Fixpoint update {A : Type} (l : list A) (i : nat) (x : A) : list A :=
  match l, i with
  | [], _ => []
  | _ :: t, O => x :: t
  | h :: t, S j => h :: update t j x
  end.

(** [l[i] = x]: a negative index counts from the end; an index outside
    the list raises [IndexError]. *)
Definition setitem {A : Type} (l : list A) (i : Z) (x : A) : outcome (list A) :=
  let j := if i <? 0 then i + len l else i in
  if (0 <=? j) && (j <? len l) then Ok (update l (Z.to_nat j) x)
  else Raise IndexError.

(** [for x in xs: body], threading the loop-carried state. *)
Fixpoint for_each {X St : Type} (xs : list X) (body : X -> St -> outcome St)
         (st : St) : outcome St :=
  match xs with
  | [] => Ok st
  | x :: rest => st' <- body x st ;; for_each rest body st'
  end.

End Py.

(** ** Reference points *)

(** Modelled from the spec: [jmetal.util.point.ReferencePoint] is not part of
    this module.  The spec describes it as an M-dimensional vector
    together with niche bookkeeping that is cleared and rebuilt by every
    selection; only the vector is kept here. *)
Record ReferencePoint : Type := mkReferencePoint { coordinates : list Q }.

(** [gen_refs_recursive(position, num_objs, left, total, element)].

    [position] is one list shared by the whole recursion and mutated in
    place, so the model threads it: the function returns the list as the
    call leaves it, next to the reference points it built. *)
Fixpoint gen_refs_recursive (fuel : nat) (position : list Q)
         (num_objs left total element : Z)
  : outcome (list Q * list ReferencePoint) :=
  match fuel with
  | O => OutOfFuel
  | S fuel' =>
      if element =? num_objs - 1 then
        c <- Py.truediv left total ;;
        position <- Py.setitem position element c ;;
        Ok (position, [mkReferencePoint position])
      else
        Py.for_each (Py.range left)
          (fun i '(position, res) =>
             c <- Py.truediv i total ;;
             position <- Py.setitem position element c ;;
             '(position, sub) <-
               gen_refs_recursive fuel' position num_objs (left - i) total
                                  (element + 1) ;;
             Ok (position, res ++ sub))
          (position, [])
  end.

(** [NSGAIII.generate_reference_points(num_objs, num_divisions_per_obj=4)].
    Every level of the recursion assigns one slot of [position] before it
    descends, so [num_objs + 1] levels of fuel are never exhausted
    (see [generate_reference_points_fuel]). *)
Definition generate_reference_points (num_objs : Z) (num_divisions_per_obj : Z)
  : outcome (list ReferencePoint) :=
  '(_, res) <- gen_refs_recursive (S (Z.to_nat num_objs))
                 (Py.replicate 0%Q num_objs) num_objs
                 (num_objs * num_divisions_per_obj)
                 (num_objs * num_divisions_per_obj) 0 ;;
  Ok res.

Definition default_num_divisions_per_obj : Z := 4.

(** ** Binomial coefficients *)

Fixpoint binomial (n k : nat) : nat :=
  match n, k with
  | _, O => 1
  | O, S _ => 0
  | S n', S k' => binomial n' k' + binomial n' (S k')
  end.

(** ** The lattice enumerated by the generator

    [simplex_tails d left total] lists, in the generator's order, the
    coordinates that a call at depth [num_objs - 1 - d] writes into the
    slots from [element] on: [d] free coordinates [i / total] followed by
    the closing coordinate that uses up what is left. *)

Definition ratio (a b : Z) : Q := Qred (inject_Z a / inject_Z b).

Fixpoint simplex_tails (d : nat) (left total : Z) : list (list Q) :=
  match d with
  | O => [[ratio left total]]
  | S d' =>
      flat_map (fun i => map (cons (ratio i total))
                             (simplex_tails d' (left - i) total))
               (Py.range left)
  end.

(** A point of the result: the slots before [element] as the caller left
    them, then the coordinates the call chose. *)
Definition completed (prefix : list Q) (tail : list Q) : ReferencePoint :=
  mkReferencePoint (prefix ++ tail).

Definition Qsum (l : list Q) : Q := fold_right Qplus 0%Q l.

(** The vertex [(1, 0, ..., 0)] of the simplex. *)
Definition first_vertex (M : Z) : list Q := 1%Q :: repeat 0%Q (Z.to_nat (M - 1)).

(** [c] is a non-negative integer multiple of [1 / d]. *)
Definition multiple_of_unit_fraction (d : Z) (c : Q) : Prop :=
  exists n : Z, 0 <= n /\ (c == inject_Z n * (1 / inject_Z d))%Q.

(** The coordinate vectors of a generated set. *)
Definition points (res : list ReferencePoint) : list (list Q) :=
  map coordinates res.

(** The numerators behind [simplex_tails]: the lists of integers that the
    recursion walks through, in its order. *)
Fixpoint compositions (d : nat) (left : Z) : list (list Z) :=
  match d with
  | O => [[left]]
  | S d' =>
      flat_map (fun i => map (cons i) (compositions d' (left - i)))
               (Py.range left)
  end.

Definition Zsum (ns : list Z) : Z := fold_right Z.add 0 ns.

(** [p] is a point of the simplex lattice of step [1 / (M * H)] whose last
    coordinate is not zero: [M] non-negative numerators that add up to
    [M * H], the last one at least 1, each divided by [M * H]. *)
Definition lattice_point (M H : Z) (p : list Q) : Prop :=
  exists ns : list Z,
    Py.len ns = M
    /\ Forall (fun n => 0 <= n) ns
    /\ 1 <= last ns 0
    /\ Zsum ns = M * H
    /\ p = map (fun n => ratio n (M * H)) ns.

(** The coordinates [p] are what the division returns for the numerators
    [ns] over [total], one by one. *)
Definition quotients_of (total : Z) (ns : list Z) (p : list Q) : Prop :=
  Forall2 (fun n c => Py.truediv n total = Ok c) ns p.

(** ** Collaborators of the algorithm *)

(** Modelled from the spec: [jmetal.util.comparator.Comparator] is not part
    of this module.  The spec makes the domination rule a pluggable
    policy; a comparator is the test "the first solution dominates the
    second". *)
Record Comparator (Solution : Type) : Type :=
  mkComparator { dominates : Solution -> Solution -> bool }.

Arguments mkComparator {Solution} dominates.
Arguments dominates {Solution} c a b.

(** Modelled from the spec: the default [DominanceComparator] (minimization):
    no worse in every objective and strictly better in at least one. *)
Fixpoint no_worse (a b : list Q) : bool :=
  match a, b with
  | x :: a', y :: b' => Qle_bool x y && no_worse a' b'
  | _, _ => true
  end.

Fixpoint strictly_better_somewhere (a b : list Q) : bool :=
  match a, b with
  | x :: a', y :: b' =>
      (Qle_bool x y && negb (Qle_bool y x)) || strictly_better_somewhere a' b'
  | _, _ => false
  end.

Definition DominanceComparator {Solution : Type}
           (objectives : Solution -> list Q) : Comparator Solution :=
  mkComparator (fun a b =>
    no_worse (objectives a) (objectives b)
    && strictly_better_somewhere (objectives a) (objectives b)).

Module FastNonDominatedRanking.
Section Ranking.

Context {Solution : Type}.
Variable comparator : Comparator Solution.
Variable solutions : list Solution.

(** Modelled from the spec: [jmetal.util.ranking.FastNonDominatedRanking]
    is not part of this module.  The spec's algorithm is the fast
    non-dominated sort: for each solution the set it dominates and the
    count of other solutions dominating it; front 0 is the solutions of
    count 0; further fronts are peeled by decrementing the counts of the
    solutions a front member dominates and collecting those that reach 0.
    Solutions are addressed by their index in the input. *)
Definition indices : list nat := seq 0 (length solutions).

Definition dominates_at (p q : nat) : bool :=
  negb (p =? q)%nat &&
  match nth_error solutions p, nth_error solutions q with
  | Some a, Some b => dominates comparator a b
  | _, _ => false
  end.

Definition ith_dominated (p : nat) : list nat :=
  filter (dominates_at p) indices.

Definition dominating_ith (q : nat) : Z :=
  Py.len (filter (fun p => dominates_at p q) indices).

Definition initial_counts : list Z := map dominating_ith indices.

Definition first_front : list nat :=
  filter (fun q => nth q initial_counts 0 =? 0) indices.

Fixpoint release (qs : list nat) (st : list Z * list nat)
  : list Z * list nat :=
  match qs with
  | [] => st
  | q :: rest =>
      let '(counts, next) := st in
      let c := nth q counts 0 - 1 in
      release rest
        (Py.update counts q c, if c =? 0 then next ++ [q] else next)
  end.

Definition next_front (front : list nat) (counts : list Z)
  : list Z * list nat :=
  fold_left (fun st p => release (ith_dominated p) st) front (counts, []).

Fixpoint peel (fuel : nat) (front : list nat) (counts : list Z)
  : outcome (list (list nat)) :=
  match front with
  | [] => Ok []
  | _ :: _ =>
      match fuel with
      | O => OutOfFuel
      | S fuel' =>
          let '(counts', next) := next_front front counts in
          rest <- peel fuel' next counts' ;;
          Ok (front :: rest)
      end
  end.

Definition at_indices (front : list nat) : list Solution :=
  flat_map (fun i => match nth_error solutions i with
                     | Some s => [s]
                     | None => []
                     end) front.

(** Modelled from the spec: [compute_ranking(solutions)], the ordered
    sequence of fronts.  Every peeled front is non-empty and no index
    enters two fronts, so [len(solutions)] rounds of fuel suffice
    (see [compute_ranking_total]). *)
Definition compute_ranking : outcome (list (list Solution)) :=
  fronts <- peel (length solutions) first_front initial_counts ;;
  Ok (map at_indices fronts).

End Ranking.
End FastNonDominatedRanking.

(** The number of solutions still waiting for a dominator to be placed:
    the measure that bounds the peeling. *)
Definition positives (counts : list Z) : nat :=
  length (filter (fun c => 0 <? c) counts).

(** Modelled from the spec: [get_subfront(rank)] of the ranking is not part
    of this module.  The ranking's output is an ordered sequence of
    fronts; [get_subfront] indexes it, and a rank outside the sequence is an
    exception. *)
Definition get_subfront {Solution : Type} (ranked_sublists : list (list Solution))
           (rank : Z) : outcome (list Solution) :=
  if (0 <=? rank) && (rank <? Py.len ranked_sublists) then
    match nth_error ranked_sublists (Z.to_nat rank) with
    | Some front => Ok front
    | None => Raise (InvalidRank rank)
    end
  else Raise (InvalidRank rank).

(** [enumerate(l)]: the members of [l] with their indices. *)
Definition enumerate {A : Type} (l : list A) : list (nat * A) :=
  combine (seq 0 (length l)) l.

(** The solutions of [l] that no other member of [l] dominates, in the order
    of [l]. *)
Definition non_dominated {Solution : Type} (c : Comparator Solution)
           (l : list Solution) : list Solution :=
  map snd
    (filter (fun '(i, s) =>
               negb (existsb (fun '(j, t) => negb (j =? i)%nat && dominates c t s)
                             (enumerate l)))
            (enumerate l)).

(** ** The algorithm object *)

Record Problem : Type := mkProblem { number_of_objectives : Z }.

Section Algorithm.

Context {Solution : Type}.

(** The fields of an [NSGAIII] instance that the methods below read or
    write.  The variation operators, the termination criterion, the
    generator and the evaluator are stored by the base class and play no
    part here. *)
Record NSGAIII : Type := mkNSGAIII {
  problem : Problem;
  dominance_comparator : Comparator Solution;
  reference_points : list ReferencePoint;
  population_size : Z;
  offspring_population_size : Z;
  solutions : list Solution
}.

(** [while self.population_size % 4 > 0: self.population_size += 1] *)
Fixpoint pad_to_multiple_of_4 (fuel : nat) (population_size : Z) : outcome Z :=
  if population_size mod 4 >? 0 then
    match fuel with
    | O => OutOfFuel
    | S fuel' => pad_to_multiple_of_4 fuel' (population_size + 1)
    end
  else Ok population_size.

(** [NSGAIII.__init__].  The base class constructor (not part of this
    module) is called with both sizes 0, which the body then overwrites;
    the population starts empty.  The loop adds 1 at most three times
    (see [pad_to_multiple_of_4_fuel]). *)
Definition init (problem : Problem) (dominance_comparator : Comparator Solution)
  : outcome NSGAIII :=
  reference_points <-
    generate_reference_points (number_of_objectives problem)
                              default_num_divisions_per_obj ;;
  population_size <- pad_to_multiple_of_4 3 (Py.len reference_points) ;;
  Ok {| problem := problem;
        dominance_comparator := dominance_comparator;
        reference_points := reference_points;
        population_size := population_size;
        offspring_population_size := population_size;
        solutions := [] |}.

(** The ranking and the environmental selection are classes of the
    library that are not part of this module; the methods take
    them as parameters.  [execute number_of_objectives reference_points k
    front] stands for
    [EnvironmentalSelection(number_of_objectives, reference_points, k).execute(front)]. *)
Variable compute_ranking :
  Comparator Solution -> list Solution -> outcome (list (list Solution)).
Variable execute :
  Z -> list ReferencePoint -> Z -> list Solution -> outcome (list Solution).

(** One record per call of [EnvironmentalSelection.execute]. *)
Record selection_call : Type := mkCall {
  call_k : Z;
  call_front : list Solution;
  call_pop : list Solution
}.

(** The [while] loop of [replacement]: the state is [(ranking_index, pop)]. *)
Fixpoint accumulate_fronts (fuel : nat) (population_size : Z)
         (ranking : list (list Solution)) (ranking_index : Z)
         (pop : list Solution) : outcome (Z * list Solution) :=
  if Py.len pop <? population_size then
    front <- get_subfront ranking ranking_index ;;
    if Py.len front <? population_size - Py.len pop then
      match fuel with
      | O => OutOfFuel
      | S fuel' =>
          accumulate_fronts fuel' population_size ranking
                            (ranking_index + 1) (pop ++ front)
      end
    else Ok (ranking_index, pop)
  else Ok (ranking_index, pop).

(** [NSGAIII.replacement(population, offspring_population)].  Next to the
    outcome the model returns the calls of [execute] it made, each with
    the survivors accumulated at that moment.  An index past the last
    front raises, so the loop runs at most once per front
    (see [accumulate_fronts_fuel]). *)
Definition replacement (self : NSGAIII)
           (population offspring_population : list Solution)
  : outcome (list Solution) * list selection_call :=
  match compute_ranking (dominance_comparator self)
                        (population ++ offspring_population) with
  | Ok ranking =>
      match accumulate_fronts (length ranking) (population_size self)
                              ranking 0 [] with
      | Ok (ranking_index, pop) =>
          let k := population_size self - Py.len pop in
          match get_subfront ranking ranking_index with
          | Ok front =>
              (selected <-
                 execute (number_of_objectives (problem self))
                         (reference_points self) k front ;;
               Ok (pop ++ selected),
               [mkCall k front pop])
          | Raise e => (Raise e, [])
          | OutOfFuel => (OutOfFuel, [])
          end
      | Raise e => (Raise e, [])
      | OutOfFuel => (OutOfFuel, [])
      end
  | Raise e => (Raise e, [])
  | OutOfFuel => (OutOfFuel, [])
  end.

(** [NSGAIII.get_result()] *)
Definition get_result (self : NSGAIII) : outcome (list Solution) :=
  ranking <- compute_ranking (dominance_comparator self) (solutions self) ;;
  get_subfront ranking 0.

(** *** Vocabulary of the replacement policy *)

(** The survivors before front [j]: fronts [0 .. j-1], whole. *)
Definition fronts_before (ranking : list (list Solution)) (j : nat)
  : list Solution :=
  concat (firstn j ranking).

(** Front [m] was taken whole: it is strictly smaller than the slots that
    were free at its turn. *)
Definition taken_whole (P : Z) (ranking : list (list Solution)) (m : nat)
  : Prop :=
  forall f : list Solution,
    nth_error ranking m = Some f ->
    Py.len f < P - Py.len (fronts_before ranking m).

(** The contract of [EnvironmentalSelection]: asked for [k] solutions of
    a front that has at least [k], it returns exactly [k] solutions, all
    drawn from that front. *)
Definition selection_contract : Prop :=
  forall (M : Z) (refs : list ReferencePoint) (k : Z) (front : list Solution),
    0 <= k <= Py.len front ->
    exists selected : list Solution,
      execute M refs k front = Ok selected
      /\ Py.len selected = k
      /\ incl selected front.

(** The contract of the ranking on one input: every ranked solution is in
    exactly one front. *)
Definition ranking_covers (ranking : list (list Solution))
           (ranked : list Solution) : Prop :=
  Permutation (concat ranking) ranked.

(** A selection that draws without repetition: what it returns, together
    with what it leaves, is the front it was given. *)
Definition selection_draws : Prop :=
  forall (M : Z) (refs : list ReferencePoint) (k : Z) (front : list Solution),
    0 <= k <= Py.len front ->
    exists selected left_out : list Solution,
      execute M refs k front = Ok selected
      /\ Py.len selected = k
      /\ Permutation (selected ++ left_out) front.

(** The reading of the replacement policy under which the selection runs
    only for a front that would overflow the population. *)
Definition invoked_only_on_overflow (P : Z) (calls : list selection_call)
  : Prop :=
  forall call : selection_call,
    In call calls -> P < Py.len (call_pop call) + Py.len (call_front call).

End Algorithm.

Arguments NSGAIII Solution : clear implicits.
Arguments selection_call Solution : clear implicits.

(** ** A run with a single objective

    One objective gives one reference point and a population of four.  A
    solution is its objective vector; the selection that keeps the first
    [k] members of the front stands in for [EnvironmentalSelection]. *)
Module SingleObjective.

Definition comparator : Comparator (list Q) :=
  DominanceComparator (fun s : list Q => s).

Definition take_first (M : Z) (refs : list ReferencePoint) (k : Z)
           (front : list (list Q)) : outcome (list (list Q)) :=
  Ok (firstn (Z.to_nat k) front).

Definition algorithm : NSGAIII (list Q) :=
  {| problem := mkProblem 1;
     dominance_comparator := comparator;
     reference_points := [mkReferencePoint [1%Q]];
     population_size := 4;
     offspring_population_size := 4;
     solutions := [] |}.

(** [algorithm.replacement], with the library's ranking modelled from the
    spec and [take_first] as the selection. *)
Definition run_replacement (population offspring_population : list (list Q))
  : outcome (list (list Q)) * list (selection_call (list Q)) :=
  replacement FastNonDominatedRanking.compute_ranking take_first algorithm
              population offspring_population.

(** Fronts of sizes 1, 4, 1, 1, 1: the second front overflows. *)
Definition parents : list (list Q) := [[1]; [2]; [2]; [2]]%Q.
Definition offspring : list (list Q) := [[2]; [3]; [4]; [5]]%Q.

Definition fronts : list (list (list Q)) :=
  [[[1]]; [[2]; [2]; [2]; [2]]; [[3]]; [[4]]; [[5]]]%Q.

(** Fronts of sizes 2, 2, 2, 2: the second front fills the population
    exactly. *)
Definition parents_even : list (list Q) := [[1]; [1]; [2]; [2]]%Q.
Definition offspring_even : list (list Q) := [[3]; [3]; [4]; [4]]%Q.

Definition fronts_even : list (list (list Q)) :=
  [[[1]; [1]]; [[2]; [2]]; [[3]; [3]]; [[4]; [4]]]%Q.

(** The algorithm after the generation that replaced [parents]. *)
Definition evolved : NSGAIII (list Q) :=
  {| problem := mkProblem 1;
     dominance_comparator := comparator;
     reference_points := [mkReferencePoint [1%Q]];
     population_size := 4;
     offspring_population_size := 4;
     solutions := [[1]; [2]; [2]; [2]]%Q |}.

End SingleObjective.

(** ** A problem without objectives

    No objective gives no reference point and a population size of 0. *)
Module NoObjective.

Definition algorithm : NSGAIII (list Q) :=
  {| problem := mkProblem 0;
     dominance_comparator := SingleObjective.comparator;
     reference_points := [];
     population_size := 0;
     offspring_population_size := 0;
     solutions := [] |}.

End NoObjective.

(** * Properties *)

Ltac mod_lia := Z.to_euclidean_division_equations; lia.

(** ** Binomial coefficients *)

Lemma binomial_0_r (n : nat) : binomial n 0 = 1%nat.
Proof. destruct n; reflexivity. Qed.

Lemma binomial_lt (n : nat) : forall k : nat, (n < k)%nat -> binomial n k = 0%nat.
Proof.
  induction n as [|n IH]; intros [|k] Hk; try lia; simpl.
  - reflexivity.
  - rewrite !IH by lia. reflexivity.
Qed.

Lemma binomial_diag (n : nat) : binomial n n = 1%nat.
Proof.
  induction n as [|n IH]; simpl; [reflexivity|].
  rewrite IH, binomial_lt by lia. reflexivity.
Qed.

(** The recursive definition agrees with the factorial formula. *)
Lemma binomial_fact (n : nat) :
  forall k : nat, (k <= n)%nat ->
    (binomial n k * (fact k * fact (n - k)) = fact n)%nat.
Proof.
  induction n as [|n IH]; intros k Hk.
  - assert (k = 0%nat) by lia. subst. reflexivity.
  - destruct k as [|k].
    + rewrite binomial_0_r, Nat.sub_0_r. change (fact 0) with 1%nat. lia.
    + destruct (Nat.eq_dec k n) as [->|Hne].
      * rewrite binomial_diag, Nat.sub_diag. change (fact 0) with 1%nat. lia.
      * change (binomial (S n) (S k))
          with (binomial n k + binomial n (S k))%nat.
        assert (Hk1 : (k <= n)%nat) by lia.
        assert (Hk2 : (S k <= n)%nat) by lia.
        pose proof (IH k Hk1) as E1.
        pose proof (IH (S k) Hk2) as E2.
        replace (S n - S k)%nat with (S (n - S k)) by lia.
        replace (n - k)%nat with (S (n - S k)) in E1 by lia.
        remember (n - S k)%nat as m eqn:Em.
        change (fact (S m)) with (S m * fact m)%nat in E1 |- *.
        change (fact (S k)) with (S k * fact k)%nat in E2 |- *.
        change (fact (S n)) with (S n * fact n)%nat.
        replace (S n) with (S k + S m)%nat at 2 by lia.
        nia.
Qed.

Lemma binomial_le_S (n : nat) :
  forall k : nat, (binomial n k <= binomial (S n) k)%nat.
Proof.
  intros [|k]; [rewrite !binomial_0_r; lia|].
  change (binomial (S n) (S k)) with (binomial n k + binomial n (S k))%nat.
  lia.
Qed.

Lemma binomial_le (n m k : nat) :
  (n <= m)%nat -> (binomial n k <= binomial m k)%nat.
Proof.
  induction 1 as [|m Hle IH]; [lia|].
  pose proof (binomial_le_S m k). lia.
Qed.

(** Column sum of Pascal's triangle, in the order in which the generator
    walks it. *)
Lemma binomial_column_sum (d n : nat) :
  list_sum (map (fun i => binomial (n - i + d - 1) d) (seq 0 n))
  = binomial (n + d) (S d).
Proof.
  induction n as [|n IH].
  - simpl. symmetry. apply binomial_lt. lia.
  - cbn [seq map].
    rewrite <- seq_shift, map_map.
    cbn [Nat.sub].
    match goal with
    | |- list_sum (?a :: ?l) = ?r => change (a + list_sum l = r)%nat
    end.
    rewrite IH.
    replace (S n + d - 1)%nat with (n + d)%nat by lia.
    reflexivity.
Qed.

(** ** Python primitives *)

Lemma bind_Ok {A B : Type} (a : A) (k : A -> outcome B) : bind (Ok a) k = k a.
Proof. reflexivity. Qed.

Lemma range_In (n i : Z) : In i (Py.range n) <-> 0 <= i < n.
Proof.
  unfold Py.range. rewrite in_map_iff. split.
  - intros (j & <- & Hj). apply in_seq in Hj. lia.
  - intros Hi. exists (Z.to_nat i). split; [lia|]. apply in_seq. lia.
Qed.

Lemma range_nonpos (n : Z) : n <= 0 -> Py.range n = [].
Proof.
  intros Hn. unfold Py.range. replace (Z.to_nat n) with 0%nat by lia. reflexivity.
Qed.

Lemma update_length {A : Type} (l : list A) :
  forall (i : nat) (x : A), length (Py.update l i x) = length l.
Proof.
  induction l as [|h t IH]; intros [|i] x; simpl; try reflexivity.
  now rewrite IH.
Qed.

Lemma update_split {A : Type} (l : list A) :
  forall (i : nat) (x : A), (i < length l)%nat ->
    Py.update l i x = firstn i l ++ x :: skipn (S i) l.
Proof.
  induction l as [|h t IH]; intros [|i] x Hi; simpl in *; try lia.
  - reflexivity.
  - rewrite IH by lia. reflexivity.
Qed.

Lemma firstn_update {A : Type} (l : list A) (i : nat) (x : A) :
  (i < length l)%nat -> firstn i (Py.update l i x) = firstn i l.
Proof.
  intros Hi. rewrite update_split by assumption.
  rewrite firstn_app, firstn_firstn, Nat.min_id, length_firstn.
  replace (i - Nat.min i (length l))%nat with 0%nat by lia.
  simpl. apply app_nil_r.
Qed.

Lemma firstn_S_update {A : Type} (l : list A) (i : nat) (x : A) :
  (i < length l)%nat -> firstn (S i) (Py.update l i x) = firstn i l ++ [x].
Proof.
  intros Hi. rewrite update_split by assumption.
  replace (S i) with (length (firstn i l) + 1)%nat
    by (rewrite length_firstn; lia).
  rewrite firstn_app_2. reflexivity.
Qed.

Lemma update_last {A : Type} (l : list A) (i : nat) (x : A) :
  S i = length l -> Py.update l i x = firstn i l ++ [x].
Proof.
  intros Hi. rewrite update_split by lia.
  rewrite skipn_all2 by lia. reflexivity.
Qed.

Lemma firstn_shorter {A : Type} (i : nat) (l l' : list A) :
  firstn (S i) l = firstn (S i) l' -> firstn i l = firstn i l'.
Proof.
  intros E.
  rewrite <- (Nat.min_l i (S i)) by lia.
  rewrite <- !firstn_firstn, E. reflexivity.
Qed.

Lemma setitem_Ok {A : Type} (l : list A) (i : Z) (x : A) :
  0 <= i < Py.len l -> Py.setitem l i x = Ok (Py.update l (Z.to_nat i) x).
Proof.
  intros Hi. unfold Py.setitem.
  destruct (Z.ltb_spec i 0); [lia|].
  destruct (Z.leb_spec 0 i); [|lia].
  destruct (Z.ltb_spec i (Py.len l)); [|lia]. reflexivity.
Qed.

Lemma truediv_Ok (a b : Z) : b <> 0 -> Py.truediv a b = Ok (ratio a b).
Proof.
  intros Hb. unfold Py.truediv. destruct (Z.eqb_spec b 0); [contradiction|].
  reflexivity.
Qed.

(** ** The generator computes the lattice *)

Section GenRefs.

Variables (num_objs total : Z).
Hypothesis total_nonzero : total <> 0.

Lemma gen_refs_recursive_spec (d : nat) :
  forall (fuel : nat) (position : list Q) (left element : Z),
    0 <= element ->
    element + Z.of_nat d = num_objs - 1 ->
    Py.len position = num_objs ->
    (d < fuel)%nat ->
    exists position',
      gen_refs_recursive fuel position num_objs left total element
      = Ok (position',
            map (completed (firstn (Z.to_nat element) position))
                (simplex_tails d left total))
      /\ length position' = length position
      /\ firstn (Z.to_nat element) position'
         = firstn (Z.to_nat element) position.
Proof.
  induction d as [|d IH]; intros fuel position left element He Hd Hlen Hfuel;
    (destruct fuel as [|fuel]; [lia|]); cbn [gen_refs_recursive].
  - destruct (Z.eqb_spec element (num_objs - 1)) as [_|Hne]; [|lia].
    rewrite truediv_Ok by assumption. rewrite bind_Ok.
    rewrite setitem_Ok by lia. rewrite bind_Ok.
    assert (Hl : S (Z.to_nat element) = length position)
      by (unfold Py.len in Hlen; lia).
    exists (Py.update position (Z.to_nat element) (ratio left total)).
    split; [|split].
    + cbn [simplex_tails map]. unfold completed.
      rewrite <- (update_last position _ _ Hl). reflexivity.
    + apply update_length.
    + apply firstn_update. lia.
  - destruct (Z.eqb_spec element (num_objs - 1)) as [Heq|_]; [lia|].
    cbn [simplex_tails].
    assert (Hl : (Z.to_nat element < length position)%nat)
      by (unfold Py.len in Hlen; lia).
    set (prefix := firstn (Z.to_nat element) position).
    assert (Loop : forall (xs : list Z) (pos : list Q) (res : list ReferencePoint),
      length pos = length position ->
      firstn (Z.to_nat element) pos = prefix ->
      exists pos',
        Py.for_each xs
          (fun i '(position, res) =>
             c <- Py.truediv i total ;;
             position <- Py.setitem position element c ;;
             '(position, sub) <-
               gen_refs_recursive fuel position num_objs (left - i) total
                                  (element + 1) ;;
             Ok (position, res ++ sub))
          (pos, res)
        = Ok (pos',
              res ++ map (completed prefix)
                (flat_map (fun i => map (cons (ratio i total))
                                        (simplex_tails d (left - i) total)) xs))
        /\ length pos' = length position
        /\ firstn (Z.to_nat element) pos' = prefix).
    { induction xs as [|x xs IHxs]; intros pos res Hpl Hpre.
      - exists pos. cbn. rewrite app_nil_r. auto.
      - cbn [Py.for_each].
        rewrite truediv_Ok by assumption. rewrite bind_Ok.
        rewrite setitem_Ok by (unfold Py.len in *; lia). rewrite bind_Ok.
        set (pos1 := Py.update pos (Z.to_nat element) (ratio x total)).
        assert (Hl1 : length pos1 = length position)
          by (unfold pos1; rewrite update_length; exact Hpl).
        destruct (IH fuel pos1 (left - x) (element + 1))
          as (pos2 & E2 & Hl2 & Hp2);
          [lia | lia | unfold Py.len in *; lia | lia |].
        rewrite E2, bind_Ok.
        replace (Z.to_nat (element + 1)) with (S (Z.to_nat element)) in * by lia.
        assert (Hp1 : firstn (S (Z.to_nat element)) pos1
                      = prefix ++ [ratio x total]).
        { unfold pos1. rewrite firstn_S_update by lia. now rewrite Hpre. }
        destruct (IHxs pos2
                    (res ++ map (completed (firstn (S (Z.to_nat element)) pos1))
                                (simplex_tails d (left - x) total)))
          as (pos3 & E3 & Hl3 & Hp3).
        + lia.
        + apply firstn_shorter in Hp2. rewrite Hp2. unfold pos1.
          rewrite firstn_update by lia. exact Hpre.
        + exists pos3. split; [|auto].
          rewrite bind_Ok, E3. f_equal. f_equal.
          cbn [flat_map]. rewrite map_app, map_map, app_assoc.
          f_equal. f_equal. apply map_ext. intros t.
          unfold completed. rewrite Hp1, <- app_assoc. reflexivity. }
    destruct (Loop (Py.range left) position [] eq_refl eq_refl)
      as (pos' & E & Hl' & Hp').
    exists pos'. rewrite E. auto.
Qed.

End GenRefs.

(** ** Arithmetic of the coordinates *)

Lemma ratio_div (a b : Z) : (ratio a b == inject_Z a / inject_Z b)%Q.
Proof. apply Qred_correct. Qed.

Lemma ratio_pos (a b : Z) : 0 < b -> (ratio a b == a # Z.to_pos b)%Q.
Proof.
  intros Hb. rewrite ratio_div.
  destruct b as [|p|p]; try lia.
  unfold Qdiv, Qinv, Qmult, inject_Z, Qeq. simpl. lia.
Qed.

Lemma ratio_le (a b t : Z) : 0 < t -> a <= b -> (ratio a t <= ratio b t)%Q.
Proof.
  intros Ht Hab. rewrite !ratio_pos by assumption.
  unfold Qle. simpl. nia.
Qed.

(** ** The lattice *)

Lemma simplex_tails_length (total : Z) (d : nat) :
  forall left : Z,
    length (simplex_tails d left total)
    = binomial (Z.to_nat left + d - 1) d.
Proof.
  induction d as [|d IH]; intros left.
  - rewrite binomial_0_r. reflexivity.
  - cbn [simplex_tails]. rewrite length_flat_map.
    unfold Py.range. rewrite map_map.
    rewrite (map_ext _ (fun i => binomial (Z.to_nat left - i + d - 1) d)).
    + rewrite binomial_column_sum. f_equal. lia.
    + intros i. rewrite length_map, IH. f_equal. lia.
Qed.

Lemma simplex_tails_dimension (total : Z) (d : nat) :
  forall (left : Z) (t : list Q),
    In t (simplex_tails d left total) -> length t = S d.
Proof.
  induction d as [|d IH]; intros left t Ht; cbn [simplex_tails] in Ht.
  - destruct Ht as [<-|[]]. reflexivity.
  - apply in_flat_map in Ht. destruct Ht as (i & _ & Ht).
    apply in_map_iff in Ht. destruct Ht as (t' & <- & Ht').
    simpl. f_equal. eapply IH. exact Ht'.
Qed.

(** The closing coordinate is a positive numerator over [total]: the loop
    [for i in range(left)] stops at [left - 1], so at least one unit is
    left for it. *)
Lemma simplex_tails_last (total : Z) (d : nat) :
  forall (left : Z) (t : list Q),
    0 < total ->
    (d = 0%nat -> 1 <= left) ->
    In t (simplex_tails d left total) ->
    (ratio 1 total <= last t 0)%Q.
Proof.
  induction d as [|d IH]; intros left t Htot Hleft Ht; cbn [simplex_tails] in Ht.
  - destruct Ht as [<-|[]]. simpl. apply ratio_le; auto.
  - apply in_flat_map in Ht. destruct Ht as (i & Hi & Ht).
    apply range_In in Hi.
    apply in_map_iff in Ht. destruct Ht as (t' & <- & Ht').
    pose proof (simplex_tails_dimension _ _ _ _ Ht') as Hlen.
    destruct t' as [|c t']; [discriminate|].
    change (last (ratio i total :: c :: t') 0%Q) with (last (c :: t') 0%Q).
    apply (IH (left - i)); [assumption | lia | exact Ht'].
Qed.

Lemma ratio_1_pos (total : Z) : 0 < total -> (0 < ratio 1 total)%Q.
Proof.
  intros Ht. rewrite ratio_pos by assumption. reflexivity.
Qed.

(** ** The generator as a whole *)

Lemma gen_refs_recursive_empty_range
      (fuel : nat) (position : list Q) (num_objs left total element : Z) :
  left <= 0 -> element <> num_objs - 1 ->
  gen_refs_recursive (S fuel) position num_objs left total element
  = Ok (position, []).
Proof.
  intros Hleft Hne. cbn [gen_refs_recursive].
  destruct (Z.eqb_spec element (num_objs - 1)); [contradiction|].
  rewrite range_nonpos by assumption. reflexivity.
Qed.

(** More fuel never changes an outcome other than [OutOfFuel]. *)
Lemma gen_refs_recursive_fuel (fuel : nat) :
  forall (fuel' : nat) (position : list Q) (num_objs left total element : Z)
         (r : outcome (list Q * list ReferencePoint)),
    gen_refs_recursive fuel position num_objs left total element = r ->
    r <> OutOfFuel ->
    (fuel <= fuel')%nat ->
    gen_refs_recursive fuel' position num_objs left total element = r.
Proof.
  induction fuel as [|fuel IH];
    intros fuel' position num_objs left total element r E Hr Hle.
  - simpl in E. congruence.
  - destruct fuel' as [|fuel']; [lia|].
    cbn [gen_refs_recursive] in *.
    destruct (element =? num_objs - 1); [exact E|].
    revert E Hr. generalize (@nil ReferencePoint) as res.
    revert position r.
    induction (Py.range left) as [|x xs IHxs]; intros position r res E Hr.
    + exact E.
    + cbn [Py.for_each] in *.
      destruct (Py.truediv x total) as [c| |]; cbn [bind] in *; try exact E.
      destruct (Py.setitem position element c) as [p| |];
        cbn [bind] in *; try exact E.
      destruct (gen_refs_recursive fuel p num_objs (left - x) total (element + 1))
        as [[p' sub]| |] eqn:Esub; cbn [bind] in E.
      * rewrite (IH fuel' _ _ _ _ _ _ Esub) by (congruence || lia).
        cbn [bind]. apply (IHxs _ _ _ E Hr).
      * rewrite (IH fuel' _ _ _ _ _ _ Esub) by (congruence || lia).
        exact E.
      * congruence.
Qed.

Lemma replicate_len {A : Type} (x : A) (n : Z) :
  Py.len (Py.replicate x n) = Z.max 0 n.
Proof. unfold Py.len, Py.replicate. rewrite repeat_length. lia. Qed.

(** With at least one objective and a non-zero number of divisions the
    result is the lattice. *)
Lemma generate_reference_points_lattice (M H : Z) :
  1 <= M -> M * H <> 0 ->
  generate_reference_points M H
  = Ok (map mkReferencePoint
            (simplex_tails (Z.to_nat (M - 1)) (M * H) (M * H))).
Proof.
  intros HM Hne. unfold generate_reference_points.
  destruct (gen_refs_recursive_spec M (M * H) Hne (Z.to_nat (M - 1))
              (S (Z.to_nat M)) (Py.replicate 0%Q M) (M * H) 0)
    as (position' & E & _); try lia.
  - rewrite replicate_len. lia.
  - rewrite E. reflexivity.
Qed.

Lemma generate_reference_points_no_divisions (M H : Z) :
  M <> 1 -> M * H <= 0 -> generate_reference_points M H = Ok [].
Proof.
  intros HM Hle. unfold generate_reference_points.
  rewrite gen_refs_recursive_empty_range by lia. reflexivity.
Qed.

(** One objective and no divisions: [0 / 0]. *)
Lemma generate_reference_points_zero_division :
  generate_reference_points 1 0 = Raise ZeroDivisionError.
Proof. vm_compute. reflexivity. Qed.

(** The fuel handed to the recursion is never exhausted. *)
Lemma generate_reference_points_total (M H : Z) :
  generate_reference_points M H <> OutOfFuel.
Proof.
  destruct (Z_le_gt_dec 1 M) as [HM|HM].
  - destruct (Z.eq_dec (M * H) 0) as [E0|Hne].
    + destruct (Z.eq_dec M 1) as [->|HM1].
      * assert (H = 0) by lia. subst H.
        rewrite generate_reference_points_zero_division. discriminate.
      * rewrite generate_reference_points_no_divisions by lia. discriminate.
    + rewrite generate_reference_points_lattice by assumption. discriminate.
  - destruct (Z_le_gt_dec (M * H) 0) as [Hle|Hgt].
    + rewrite generate_reference_points_no_divisions by lia. discriminate.
    + unfold generate_reference_points. cbn [gen_refs_recursive].
      destruct (Z.eqb_spec 0 (M - 1)); [lia|].
      unfold Py.range.
      destruct (Z.to_nat (M * H)) as [|k] eqn:Ek; [lia|].
      cbn [seq map Py.for_each].
      unfold Py.truediv. destruct (Z.eqb_spec (M * H) 0); [lia|].
      cbn [bind].
      unfold Py.replicate. replace (Z.to_nat M) with 0%nat by lia.
      cbn. discriminate.
Qed.

(** Any larger fuel yields the same result. *)
Lemma generate_reference_points_fuel (M H : Z) (fuel : nat) :
  (Z.to_nat M < fuel)%nat ->
  ('(_, res) <- gen_refs_recursive fuel (Py.replicate 0%Q M) M
                  (M * H) (M * H) 0 ;; Ok res)
  = generate_reference_points M H.
Proof.
  intros Hfuel. pose proof (generate_reference_points_total M H) as Htot.
  unfold generate_reference_points in *.
  destruct (gen_refs_recursive (S (Z.to_nat M)) (Py.replicate 0%Q M) M
              (M * H) (M * H) 0) as [[p res]| |] eqn:E.
  - rewrite (gen_refs_recursive_fuel _ fuel _ _ _ _ _ _ E); [reflexivity| |lia].
    discriminate.
  - rewrite (gen_refs_recursive_fuel _ fuel _ _ _ _ _ _ E); [reflexivity| |lia].
    discriminate.
  - exfalso. apply Htot. reflexivity.
Qed.

Lemma points_of_lattice (l : list (list Q)) :
  points (map mkReferencePoint l) = l.
Proof.
  unfold points. rewrite map_map. cbn [coordinates]. apply map_id.
Qed.

Lemma last_zeros (k : nat) (x : Q) : last (x :: repeat 0%Q (S k)) 0%Q = 0%Q.
Proof.
  revert x. induction k as [|k IH]; intros x; [reflexivity|].
  change (last (x :: repeat 0%Q (S (S k))) 0%Q)
    with (last (0%Q :: repeat 0%Q (S k)) 0%Q).
  apply IH.
Qed.

Lemma Qsum_zeros (k : nat) : (Qsum (repeat 0%Q k) == 0)%Q.
Proof.
  induction k as [|k IH]; [reflexivity|].
  change (Qsum (repeat 0%Q (S k))) with (0 + Qsum (repeat 0%Q k))%Q.
  rewrite IH. reflexivity.
Qed.

Lemma first_vertex_on_lattice (M H : Z) :
  M * H <> 0 -> 0 <= M * H ->
  Forall (multiple_of_unit_fraction (M * H)) (first_vertex M)
  /\ (Qsum (first_vertex M) == 1)%Q.
Proof.
  intros Hne Hpos. split.
  - constructor.
    + exists (M * H). split; [assumption|].
      unfold Qdiv. rewrite Qmult_1_l. symmetry. apply Qmult_inv_r.
      unfold Qeq, inject_Z. simpl. lia.
    + apply Forall_forall. intros c Hc. apply repeat_spec in Hc. subst c.
      exists 0. split; [lia|]. unfold Qdiv. ring.
  - unfold first_vertex.
    change (1 + Qsum (repeat 0%Q (Z.to_nat (M - 1))) == 1)%Q.
    rewrite Qsum_zeros. ring.
Qed.

(** ** Claims about the reference point generator *)

(** C1, as the spec states it, at M = 2 and H = 4: the generator returns 8
    points, while C(H+M-1, M-1) = C(5, 1) = 5. *)
Lemma generate_reference_points_count_2_4 :
  exists res : list ReferencePoint,
    generate_reference_points 2 4 = Ok res
    /\ length res = 8%nat
    /\ length res <> binomial (Z.to_nat (4 + 2 - 1)) (Z.to_nat (2 - 1)).
Proof.
  eexists. split; [vm_compute; reflexivity|].
  split; [reflexivity | discriminate].
Qed.

(** C1, amended: for M >= 1 objectives and H >= 1 divisions per objective,
    [generate_reference_points] works on the lattice of step 1/(M*H): it
    returns at least C(H+M-1, M-1) and at most C(M*H+M-1, M-1) reference
    points, the latter being the number of points of that lattice. *)
Theorem generate_reference_points_count_bounds (M H : Z) :
  1 <= M -> 1 <= H ->
  exists res : list ReferencePoint,
    generate_reference_points M H = Ok res
    /\ (binomial (Z.to_nat (H + M - 1)) (Z.to_nat (M - 1)) <= length res)%nat
    /\ (length res
        <= binomial (Z.to_nat (M * H + M - 1)) (Z.to_nat (M - 1)))%nat.
Proof.
  intros HM HH. eexists. split.
  - apply generate_reference_points_lattice; nia.
  - rewrite length_map, simplex_tails_length. split.
    + destruct (Z.eq_dec M 1) as [->|HM1].
      * change (Z.to_nat (1 - 1)) with 0%nat. rewrite !binomial_0_r. lia.
      * apply binomial_le. nia.
    + apply binomial_le. nia.
Qed.

Lemma generate_reference_points_count_bounds_witness :
  exists res : list ReferencePoint,
    generate_reference_points 3 4 = Ok res
    /\ (binomial (Z.to_nat (4 + 3 - 1)) (Z.to_nat (3 - 1)) <= length res)%nat
    /\ (length res
        <= binomial (Z.to_nat (3 * 4 + 3 - 1)) (Z.to_nat (3 - 1)))%nat.
Proof. apply generate_reference_points_count_bounds; lia. Defined.

(** C2, as the spec states it, at M = 2 and H = 4: the point (1/8, 7/8) is
    generated, and 1/8 is not a multiple of 1/H = 1/4. *)
Lemma generate_reference_points_2_4_eighths :
  exists res : list ReferencePoint,
    generate_reference_points 2 4 = Ok res
    /\ In [1 # 8; 7 # 8]%Q (points res)
    /\ ~ multiple_of_unit_fraction 4 (1 # 8).
Proof.
  eexists. split; [vm_compute; reflexivity|]. split.
  - right. left. reflexivity.
  - intros (n & Hn & E). unfold Qeq in E. simpl in E. lia.
Qed.

(** C7: for one objective and the default four divisions the generator
    returns the single point [1.0]. *)
Theorem generate_reference_points_single_objective :
  generate_reference_points 1 default_num_divisions_per_obj
  = Ok [mkReferencePoint [1%Q]].
Proof. vm_compute. reflexivity. Qed.

(** C10: for M >= 2 objectives, whatever the number of divisions, the
    generator returns a result in which every point's last coordinate is
    strictly positive and at least 1/(M*H); the vertex (1, 0, ..., 0), a
    point of the lattice when H >= 1, is not among them. *)
Theorem generate_reference_points_last_positive (M H : Z) :
  2 <= M ->
  exists res : list ReferencePoint,
    generate_reference_points M H = Ok res
    /\ (forall p : list Q, In p (points res) ->
          (0 < last p 0)%Q /\ (1 / inject_Z (M * H) <= last p 0)%Q)
    /\ ~ In (first_vertex M) (points res)
    /\ (1 <= H ->
        Forall (multiple_of_unit_fraction (M * H)) (first_vertex M)
        /\ (Qsum (first_vertex M) == 1)%Q).
Proof.
  intros HM.
  assert (Hlast : last (first_vertex M) 0%Q = 0%Q).
  { unfold first_vertex. replace (Z.to_nat (M - 1)) with (S (Z.to_nat (M - 2)))
      by lia. apply last_zeros. }
  destruct (Z_le_gt_dec H 0) as [HH|HH].
  - exists []. split; [|split; [|split]].
    + apply generate_reference_points_no_divisions; nia.
    + intros p [].
    + intros [].
    + lia.
  - assert (Htot : 0 < M * H) by nia.
    assert (Bound : forall p : list Q,
      In p (simplex_tails (Z.to_nat (M - 1)) (M * H) (M * H)) ->
      (ratio 1 (M * H) <= last p 0)%Q).
    { intros p Hp.
      apply (simplex_tails_last (M * H) (Z.to_nat (M - 1)) (M * H));
        [exact Htot | lia | exact Hp]. }
    eexists. split; [|split; [|split]].
    + apply generate_reference_points_lattice; lia.
    + rewrite points_of_lattice. intros p Hp. split.
      * eapply Qlt_le_trans; [apply ratio_1_pos; exact Htot | now apply Bound].
      * rewrite <- (ratio_div 1 (M * H)). now apply Bound.
    + rewrite points_of_lattice. intros Hin.
      pose proof (Bound _ Hin) as Hb. rewrite Hlast in Hb.
      pose proof (ratio_1_pos _ Htot) as Hp.
      apply (Qlt_irrefl 0). eapply Qlt_le_trans; eassumption.
    + intros _. apply first_vertex_on_lattice; lia.
Qed.

Lemma generate_reference_points_last_positive_witness :
  exists res : list ReferencePoint,
    generate_reference_points 2 4 = Ok res
    /\ (forall p : list Q, In p (points res) ->
          (0 < last p 0)%Q /\ (1 / inject_Z (2 * 4) <= last p 0)%Q)
    /\ ~ In (first_vertex 2) (points res)
    /\ (1 <= 4 ->
        Forall (multiple_of_unit_fraction (2 * 4)) (first_vertex 2)
        /\ (Qsum (first_vertex 2) == 1)%Q).
Proof. apply generate_reference_points_last_positive; lia. Defined.

(** ** Construction *)

(** The padding loop returns its argument rounded up to a multiple of 4,
    whatever fuel of at least three rounds it is given. *)
Lemma pad_to_multiple_of_4_fuel (fuel : nat) (n : Z) :
  (3 <= fuel)%nat ->
  pad_to_multiple_of_4 fuel n = Ok (n + (- n) mod 4).
Proof.
  intros Hfuel.
  destruct fuel as [|[|[|fuel]]]; try lia.
  cbn [pad_to_multiple_of_4].
  destruct (Z.gtb_spec (n mod 4) 0); [|f_equal; mod_lia].
  destruct (Z.gtb_spec ((n + 1) mod 4) 0); [|f_equal; mod_lia].
  destruct (Z.gtb_spec ((n + 1 + 1) mod 4) 0); [|f_equal; mod_lia].
  destruct fuel; cbn [pad_to_multiple_of_4];
    (destruct (Z.gtb_spec ((n + 1 + 1 + 1) mod 4) 0);
     [mod_lia | f_equal; mod_lia]).
Qed.

Lemma round_up_least (n : Z) :
  (n + (- n) mod 4) mod 4 = 0
  /\ n <= n + (- n) mod 4
  /\ forall m : Z, m mod 4 = 0 -> n <= m -> n + (- n) mod 4 <= m.
Proof. repeat split; intros; mod_lia. Qed.

(** With the default four divisions the generator never raises. *)
Lemma generate_reference_points_default (M : Z) :
  exists res : list ReferencePoint,
    generate_reference_points M default_num_divisions_per_obj = Ok res.
Proof.
  unfold default_num_divisions_per_obj.
  destruct (Z_le_gt_dec 1 M).
  - eexists. apply generate_reference_points_lattice; lia.
  - exists []. apply generate_reference_points_no_divisions; lia.
Qed.

(** C5: construction succeeds, stores the generated reference points, and
    sets [population_size] (and [offspring_population_size]) to the smallest
    multiple of 4 that is at least the number of reference points. *)
Theorem init_population_size {Solution : Type}
        (problem0 : Problem) (comparator : Comparator Solution) :
  exists self : NSGAIII Solution,
    init problem0 comparator = Ok self
    /\ generate_reference_points (number_of_objectives problem0)
                                 default_num_divisions_per_obj
       = Ok (reference_points self)
    /\ population_size self mod 4 = 0
    /\ Py.len (reference_points self) <= population_size self
    /\ (forall m : Z,
          m mod 4 = 0 -> Py.len (reference_points self) <= m ->
          population_size self <= m)
    /\ offspring_population_size self = population_size self.
Proof.
  destruct (generate_reference_points_default (number_of_objectives problem0))
    as (res & E).
  unfold init. rewrite E, bind_Ok.
  rewrite pad_to_multiple_of_4_fuel by lia. rewrite bind_Ok.
  eexists. split; [reflexivity|]. cbn.
  destruct (round_up_least (Py.len res)) as (H0 & H1 & H2).
  repeat split; auto.
Qed.

(** C6, at M = 3 and H = 4: the generator returns 78 points, not 15, and
    construction sets [population_size] to 80, not 16.  The loop
    [for i in range(left)] never leaves 0 for the closing coordinate, so
    lattice points such as (1, 0, 0) and (0, 1, 0) are missing from the
    result. *)
Lemma three_objectives_not_15_16 :
  exists (res : list ReferencePoint) (self : NSGAIII (list Q)),
    generate_reference_points 3 4 = Ok res
    /\ init (mkProblem 3) (DominanceComparator (fun s => s)) = Ok self
    /\ length res = 78%nat /\ length res <> 15%nat
    /\ population_size self = 80 /\ population_size self <> 16.
Proof.
  eexists. eexists. split; [vm_compute; reflexivity|].
  split; [vm_compute; reflexivity|].
  repeat split; discriminate.
Qed.

(** ** Fronts *)

Lemma len_app {A : Type} (l l' : list A) : Py.len (l ++ l') = Py.len l + Py.len l'.
Proof. unfold Py.len. rewrite length_app. lia. Qed.

Lemma len_nonneg {A : Type} (l : list A) : 0 <= Py.len l.
Proof. unfold Py.len. lia. Qed.

Lemma get_subfront_Ok {Solution : Type} (ranking : list (list Solution))
      (i : nat) (front : list Solution) :
  nth_error ranking i = Some front ->
  get_subfront ranking (Z.of_nat i) = Ok front.
Proof.
  intros E. unfold get_subfront.
  assert (i < length ranking)%nat by (apply nth_error_Some; congruence).
  destruct (Z.leb_spec 0 (Z.of_nat i)); [|lia].
  destruct (Z.ltb_spec (Z.of_nat i) (Py.len ranking));
    [|unfold Py.len in *; lia].
  cbn [andb]. rewrite Nat2Z.id, E. reflexivity.
Qed.

Lemma concat_firstn_S {A : Type} (l : list (list A)) :
  forall (i : nat) (f : list A),
    nth_error l i = Some f ->
    concat (firstn (S i) l) = concat (firstn i l) ++ f.
Proof.
  induction l as [|h t IH]; intros [|i] f E; simpl in E; try discriminate.
  - injection E as ->. simpl. now rewrite app_nil_r.
  - change (firstn (S (S i)) (h :: t)) with (h :: firstn (S i) t).
    change (firstn (S i) (h :: t)) with (h :: firstn i t).
    cbn [concat]. rewrite (IH _ _ E), app_assoc. reflexivity.
Qed.

Section Replacement.

Context {Solution : Type}.
Variable compute_ranking :
  Comparator Solution -> list Solution -> outcome (list (list Solution)).
Variable execute :
  Z -> list ReferencePoint -> Z -> list Solution -> outcome (list Solution).

(** The loop stops at the first front that is at least as large as the
    free slots, having taken every earlier front whole; it needs no more
    fuel than there are fronts left. *)
Lemma accumulate_fronts_fuel (P : Z) (ranking : list (list Solution)) :
  P <= Py.len (concat ranking) ->
  forall (fuel i : nat),
    (length ranking - i <= fuel)%nat ->
    Py.len (fronts_before ranking i) < P ->
    exists (j : nat) (front : list Solution),
      accumulate_fronts fuel P ranking (Z.of_nat i) (fronts_before ranking i)
      = Ok (Z.of_nat j, fronts_before ranking j)
      /\ (i <= j)%nat
      /\ nth_error ranking j = Some front
      /\ Py.len (fronts_before ranking j) < P
      /\ P - Py.len (fronts_before ranking j) <= Py.len front
      /\ forall m : nat, (i <= m < j)%nat -> taken_whole P ranking m.
Proof.
  intros Hsize fuel.
  induction fuel as [|fuel IH]; intros i Hfuel Hfree.
  - exfalso. unfold fronts_before in Hfree.
    rewrite firstn_all2 in Hfree by lia. lia.
  - destruct (nth_error ranking i) as [front|] eqn:E.
    2:{ exfalso. apply nth_error_None in E. unfold fronts_before in Hfree.
        rewrite firstn_all2 in Hfree by lia. lia. }
    cbn [accumulate_fronts].
    destruct (Z.ltb_spec (Py.len (fronts_before ranking i)) P); [|lia].
    rewrite (get_subfront_Ok _ _ _ E), bind_Ok.
    destruct (Z.ltb_spec (Py.len front)
                         (P - Py.len (fronts_before ranking i))) as [Hlt|Hge].
    + assert (Hnext : fronts_before ranking (S i)
                      = fronts_before ranking i ++ front)
        by (apply concat_firstn_S; exact E).
      destruct (IH (S i)) as (j & fr & Eacc & Hij & Ej & Hj1 & Hj2 & Hw).
      * lia.
      * rewrite Hnext, len_app. lia.
      * exists j, fr.
        split; [|split; [lia|split; [exact Ej|split; [exact Hj1|split;
          [exact Hj2|]]]]].
        -- rewrite <- Hnext.
           replace (Z.of_nat i + 1) with (Z.of_nat (S i)) by lia.
           exact Eacc.
        -- intros m Hm. destruct (Nat.eq_dec m i) as [->|Hne].
           ++ intros f Ef. rewrite E in Ef. injection Ef as <-. exact Hlt.
           ++ apply Hw. lia.
    + exists i, front.
      split; [reflexivity|]. split; [lia|]. split; [exact E|].
      split; [assumption|]. split; [lia|].
      intros m Hm. lia.
Qed.

Variable self : NSGAIII Solution.
Variables population offspring_population : list Solution.
Variable ranking : list (list Solution).

Hypothesis ranked :
  compute_ranking (dominance_comparator self)
                  (population ++ offspring_population) = Ok ranking.
Hypothesis covered :
  ranking_covers ranking (population ++ offspring_population).
Hypothesis enough :
  population_size self <= Py.len (population ++ offspring_population).

Lemma enough_ranked : population_size self <= Py.len (concat ranking).
Proof.
  unfold Py.len in *. rewrite (Permutation_length covered). exact enough.
Qed.

(** What [replacement] does once the population size is positive. *)
Lemma replacement_unfold :
  1 <= population_size self ->
  exists (j : nat) (front : list Solution),
    nth_error ranking j = Some front
    /\ (forall m : nat, (m < j)%nat ->
          taken_whole (population_size self) ranking m)
    /\ Py.len (fronts_before ranking j) < population_size self
    /\ population_size self - Py.len (fronts_before ranking j)
       <= Py.len front
    /\ replacement compute_ranking execute self population offspring_population
       = (selected <-
            execute (number_of_objectives (problem self))
                    (reference_points self)
                    (population_size self
                     - Py.len (fronts_before ranking j)) front ;;
          Ok (fronts_before ranking j ++ selected),
          [mkCall (population_size self
                   - Py.len (fronts_before ranking j)) front
                  (fronts_before ranking j)]).
Proof.
  intros HP.
  destruct (accumulate_fronts_fuel (population_size self) ranking
              enough_ranked (length ranking) 0%nat)
    as (j & front & Eacc & _ & Ej & Hfree & Hfit & Hwhole).
  - lia.
  - unfold fronts_before. simpl. unfold Py.len. simpl. lia.
  - exists j, front. repeat split; try assumption.
    + intros m Hm. apply Hwhole. lia.
    + unfold replacement. rewrite ranked.
      change (accumulate_fronts (length ranking) (population_size self)
                                ranking 0 [])
        with (accumulate_fronts (length ranking) (population_size self)
                                ranking (Z.of_nat 0)
                                (fronts_before ranking 0)).
      rewrite Eacc, (get_subfront_Ok _ _ _ Ej). reflexivity.
Qed.

(** With population size 0 the loop is skipped and front 0 is handed to
    the selection with [k = 0]. *)
Lemma replacement_unfold_0 :
  population_size self = 0 ->
  population ++ offspring_population <> [] ->
  exists front : list Solution,
    replacement compute_ranking execute self population offspring_population
    = (selected <-
         execute (number_of_objectives (problem self))
                 (reference_points self) 0 front ;;
       Ok selected,
       [mkCall 0 front []]).
Proof.
  intros HP Hne.
  destruct ranking as [|front rest] eqn:Er.
  - exfalso. apply Hne. apply Permutation_nil. exact covered.
  - exists front. unfold replacement. rewrite ranked, HP.
    replace (accumulate_fronts (length (front :: rest)) 0 (front :: rest) 0 [])
      with (@Ok (Z * list Solution) (0, []))
      by (destruct (length (front :: rest)); reflexivity).
    reflexivity.
Qed.

(** C4, amended: with a positive population size and a ranking that
    holds at least that many solutions, [replacement] takes fronts
    0 .. j-1 whole, each strictly smaller than the slots free at its
    turn; front j is the first that is at least as large as the free
    slots (it may fill them exactly), and [EnvironmentalSelection] is
    executed once, on that front, with k the number of free slots; the
    result is the accumulated fronts followed by the selection. *)
Theorem replacement_boundary_front :
  1 <= population_size self ->
  exists (j : nat) (front : list Solution),
    let pop := fronts_before ranking j in
    let k := population_size self - Py.len pop in
    nth_error ranking j = Some front
    /\ (forall m : nat, (m < j)%nat ->
          taken_whole (population_size self) ranking m)
    /\ 1 <= k <= Py.len front
    /\ snd (replacement compute_ranking execute self
                        population offspring_population)
       = [mkCall k front pop]
    /\ fst (replacement compute_ranking execute self
                        population offspring_population)
       = (selected <-
            execute (number_of_objectives (problem self))
                    (reference_points self) k front ;;
          Ok (pop ++ selected)).
Proof.
  intros HP.
  destruct (replacement_unfold HP) as (j & front & Ej & Hw & Hfree & Hfit & E).
  exists j, front. cbv zeta. rewrite E. cbn [fst snd].
  repeat split; try assumption; lia.
Qed.

(** C9: with a positive population size and at least that many ranked
    solutions, [EnvironmentalSelection] is executed exactly once, and its
    [k] is at least 1 and at most the size of the front it is given. *)
Theorem replacement_selection_bounds :
  1 <= population_size self ->
  exists call : selection_call Solution,
    snd (replacement compute_ranking execute self
                     population offspring_population) = [call]
    /\ 1 <= call_k call <= Py.len (call_front call).
Proof.
  intros HP.
  destruct (replacement_unfold HP) as (j & front & Ej & Hw & Hfree & Hfit & E).
  rewrite E. cbn [snd]. eexists. split; [reflexivity|]. cbn. lia.
Qed.

(** C3: if [EnvironmentalSelection] meets its contract, then for a
    non-empty combined population of at least [population_size]
    solutions, [replacement] returns exactly [population_size]
    solutions. *)
Theorem replacement_size :
  selection_contract execute ->
  0 <= population_size self ->
  population ++ offspring_population <> [] ->
  exists survivors : list Solution,
    fst (replacement compute_ranking execute self
                     population offspring_population) = Ok survivors
    /\ Py.len survivors = population_size self.
Proof.
  intros Hsel HP Hne.
  destruct (Z.eq_dec (population_size self) 0) as [H0|Hpos].
  - destruct (replacement_unfold_0 H0 Hne) as (front & E).
    destruct (Hsel (number_of_objectives (problem self))
                   (reference_points self) 0 front)
      as (selected & Esel & Hlen & _); [pose proof (len_nonneg front); lia|].
    rewrite E, Esel. cbn. exists selected. split; [reflexivity | lia].
  - destruct (replacement_unfold ltac:(lia))
      as (j & front & Ej & Hw & Hfree & Hfit & E).
    destruct (Hsel (number_of_objectives (problem self))
                   (reference_points self)
                   (population_size self - Py.len (fronts_before ranking j))
                   front)
      as (selected & Esel & Hlen & _); [lia|].
    rewrite E, Esel. cbn. eexists. split; [reflexivity|].
    rewrite len_app. lia.
Qed.

End Replacement.

(** ** Lists addressed by index *)

Lemma len_filter_zero {A : Type} (f : A -> bool) (l : list A) :
  (Py.len (filter f l) =? 0) = negb (existsb f l).
Proof.
  induction l as [|x l IH]; [reflexivity|].
  cbn [filter existsb]. destruct (f x); [|exact IH].
  unfold Py.len. simpl. reflexivity.
Qed.

Lemma existsb_enumerate_at {A : Type} (h : nat -> bool) (h' : nat * A -> bool) :
  forall (l : list A) (a : nat),
    (forall (i : nat) (s : A),
        nth_error l i = Some s -> h (a + i)%nat = h' ((a + i)%nat, s)) ->
    existsb h (seq a (length l)) = existsb h' (combine (seq a (length l)) l).
Proof.
  induction l as [|x l IH]; intros a Hh; [reflexivity|].
  cbn [length seq combine existsb].
  pose proof (Hh 0%nat x eq_refl) as H0. rewrite Nat.add_0_r in H0.
  rewrite H0. f_equal. apply IH.
  intros i s Hi. specialize (Hh (S i) s Hi).
  rewrite Nat.add_succ_r in Hh. exact Hh.
Qed.

Lemma filter_enumerate_at {A : Type} (g : nat -> bool) (g' : nat * A -> bool)
      (get : nat -> option A) :
  forall (l : list A) (a : nat),
    (forall (i : nat) (s : A),
        nth_error l i = Some s ->
        get (a + i)%nat = Some s /\ g (a + i)%nat = g' ((a + i)%nat, s)) ->
    flat_map (fun i => match get i with Some s => [s] | None => [] end)
             (filter g (seq a (length l)))
    = map snd (filter g' (combine (seq a (length l)) l)).
Proof.
  induction l as [|x l IH]; intros a Hg; [reflexivity|].
  cbn [length seq combine filter].
  destruct (Hg 0%nat x eq_refl) as (Hget & H0). rewrite Nat.add_0_r in Hget, H0.
  assert (Htail : forall (i : nat) (s : A),
             nth_error l i = Some s ->
             get (S a + i)%nat = Some s /\ g (S a + i)%nat = g' ((S a + i)%nat, s)).
  { intros i s Hi. specialize (Hg (S i) s Hi).
    rewrite Nat.add_succ_r in Hg. exact Hg. }
  rewrite <- H0. destruct (g a).
  - cbn [flat_map map snd]. rewrite Hget. cbn [app]. f_equal.
    apply IH. exact Htail.
  - apply IH. exact Htail.
Qed.

Lemma count_zero_or_positive (f : nat -> Z) (idx : list nat) :
  (forall q : nat, 0 <= f q) ->
  (positives (map f idx)
   + length (filter (fun q => (f q =? 0)%Z) idx) = length idx)%nat.
Proof.
  intros Hf. unfold positives.
  induction idx as [|q idx IH]; [reflexivity|].
  cbn [map filter]. specialize (Hf q).
  destruct (Z.ltb_spec 0 (f q)); destruct (Z.eqb_spec (f q) 0);
    simpl; lia.
Qed.

(** ** The fast non-dominated sort *)

Section RankingFacts.

Import FastNonDominatedRanking.

Context {Solution : Type}.
Variable comparator : Comparator Solution.
Variable solutions : list Solution.

Lemma positives_update (counts : list Z) :
  forall (q : nat) (v : Z),
    (q < length counts)%nat ->
    (positives (Py.update counts q v)
     + (if (0 <? nth q counts 0)%Z then 1 else 0)
     = positives counts + (if (0 <? v)%Z then 1 else 0))%nat.
Proof.
  unfold positives.
  induction counts as [|c t IH]; intros [|q] v Hq; simpl in Hq; try lia.
  - cbn [Py.update filter nth].
    destruct (0 <? c), (0 <? v); simpl; lia.
  - cbn [Py.update filter nth].
    specialize (IH q v ltac:(lia)).
    destruct (0 <? c); simpl; lia.
Qed.

(** Releasing the solutions a front member dominates: a count that
    reaches 0 leaves the positive counts and joins the next front. *)
Lemma release_measure (qs : list nat) :
  forall (counts : list Z) (next : list nat),
    Forall (fun q => (q < length counts)%nat) qs ->
    length (fst (release qs (counts, next))) = length counts
    /\ (positives (fst (release qs (counts, next)))
        + length (snd (release qs (counts, next)))
        = positives counts + length next)%nat.
Proof.
  induction qs as [|q qs IH]; intros counts next Hqs.
  - simpl. auto.
  - inversion Hqs as [|? ? Hq Hrest]; subst.
    cbn [release].
    destruct (IH (Py.update counts q (nth q counts 0 - 1))
                 (if nth q counts 0 - 1 =? 0 then next ++ [q] else next))
      as (Hlen & Hpos).
    + rewrite update_length. exact Hrest.
    + rewrite update_length in Hlen. split; [exact Hlen|].
      rewrite Hpos.
      pose proof (positives_update counts q (nth q counts 0 - 1) Hq) as Hu.
      destruct (Z.eqb_spec (nth q counts 0 - 1) 0) as [E0|Hne].
      * rewrite length_app. simpl.
        destruct (Z.ltb_spec 0 (nth q counts 0)); [|lia].
        destruct (Z.ltb_spec 0 (nth q counts 0 - 1)); lia.
      * destruct (Z.ltb_spec 0 (nth q counts 0));
          destruct (Z.ltb_spec 0 (nth q counts 0 - 1)); lia.
Qed.

Lemma ith_dominated_bound (p : nat) :
  Forall (fun q => (q < length solutions)%nat)
         (ith_dominated comparator solutions p).
Proof.
  apply Forall_forall. intros q Hq. unfold ith_dominated in Hq.
  apply filter_In in Hq. destruct Hq as (Hq & _).
  unfold indices in Hq. apply in_seq in Hq. lia.
Qed.

Lemma next_front_measure (front : list nat) :
  forall (counts : list Z),
    length counts = length solutions ->
    length (fst (next_front comparator solutions front counts))
    = length solutions
    /\ (positives (fst (next_front comparator solutions front counts))
        + length (snd (next_front comparator solutions front counts))
        = positives counts)%nat.
Proof.
  unfold next_front.
  assert (G : forall (st : list Z * list nat),
    length (fst st) = length solutions ->
    length (fst (fold_left
                   (fun st p => release (ith_dominated comparator solutions p) st)
                   front st)) = length solutions
    /\ (positives (fst (fold_left
                   (fun st p => release (ith_dominated comparator solutions p) st)
                   front st))
        + length (snd (fold_left
                   (fun st p => release (ith_dominated comparator solutions p) st)
                   front st))
        = positives (fst st) + length (snd st))%nat).
  { induction front as [|p front IH]; intros [counts next] Hlen.
    - simpl. auto.
    - cbn [fold_left]. cbn [fst snd] in Hlen.
      destruct (release_measure (ith_dominated comparator solutions p)
                                counts next) as (Hl & Hp).
      + rewrite Hlen. apply ith_dominated_bound.
      + destruct (IH (release (ith_dominated comparator solutions p)
                              (counts, next))) as (Hl' & Hp').
        * rewrite Hl. exact Hlen.
        * split; [exact Hl'|]. rewrite Hp', Hp. reflexivity. }
  intros counts Hlen. destruct (G (counts, []) Hlen) as (Hl & Hp).
  split; [exact Hl|]. rewrite Hp. simpl. lia.
Qed.

(** Peeling needs one round of fuel per non-empty front, and every
    non-empty front after the first lowers the number of positive
    counts. *)
Lemma peel_enough_fuel (fuel : nat) :
  forall (front : list nat) (counts : list Z),
    length counts = length solutions ->
    (front <> [] -> (positives counts < fuel)%nat) ->
    exists rest : list (list nat),
      peel comparator solutions fuel front counts
      = Ok (match front with [] => [] | _ :: _ => front :: rest end).
Proof.
  induction fuel as [|fuel IH]; intros front counts Hlen Hfuel.
  - destruct front as [|p front]; [exists []; reflexivity|].
    specialize (Hfuel ltac:(discriminate)). lia.
  - destruct front as [|p front]; [exists []; reflexivity|].
    specialize (Hfuel ltac:(discriminate)).
    cbn [peel].
    destruct (next_front_measure (p :: front) counts Hlen) as (Hl & Hp).
    destruct (next_front comparator solutions (p :: front) counts)
      as [counts' next] eqn:En.
    cbn [fst snd] in Hl, Hp.
    destruct (IH next counts' Hl) as (rest & E).
    + intros Hne. destruct next; [contradiction|]. simpl in Hp. lia.
    + rewrite E, bind_Ok. eexists. reflexivity.
Qed.

Lemma nth_initial_counts (q : nat) :
  (q < length solutions)%nat ->
  nth q (initial_counts comparator solutions) 0
  = dominating_ith comparator solutions q.
Proof.
  intros Hq. unfold initial_counts, indices.
  rewrite (nth_indep _ 0 (dominating_ith comparator solutions 0%nat))
    by (rewrite length_map, length_seq; exact Hq).
  rewrite map_nth, seq_nth by exact Hq. reflexivity.
Qed.

Lemma first_front_counts :
  first_front comparator solutions
  = filter (fun q => dominating_ith comparator solutions q =? 0)
           (indices solutions).
Proof.
  unfold first_front. apply filter_ext_in. intros q Hq.
  unfold indices in Hq. apply in_seq in Hq.
  rewrite nth_initial_counts by lia. reflexivity.
Qed.

Lemma initial_measure :
  (positives (initial_counts comparator solutions)
   + length (first_front comparator solutions) = length solutions)%nat.
Proof.
  rewrite first_front_counts. unfold initial_counts.
  rewrite count_zero_or_positive.
  - unfold indices. apply length_seq.
  - intros q. apply len_nonneg.
Qed.

(** Front 0 holds the solutions that no other solution dominates. *)
Lemma first_front_non_dominated :
  at_indices solutions (first_front comparator solutions)
  = non_dominated comparator solutions.
Proof.
  rewrite first_front_counts.
  unfold at_indices, non_dominated, enumerate, indices.
  apply (filter_enumerate_at _ _ (nth_error solutions) solutions 0).
  intros i s Hi. cbn [Nat.add]. split; [exact Hi|].
  unfold dominating_ith. rewrite len_filter_zero. f_equal.
  unfold indices.
  apply (existsb_enumerate_at _ _ solutions 0).
  intros j t Hj. cbn [Nat.add].
  unfold dominates_at. rewrite Hj, Hi. reflexivity.
Qed.

(** The sort never exhausts its fuel, and its first front is front 0. *)
Lemma compute_ranking_total :
  exists rest : list (list nat),
    compute_ranking comparator solutions
    = Ok (map (at_indices solutions)
              (match first_front comparator solutions with
               | [] => []
               | _ :: _ => first_front comparator solutions :: rest
               end)).
Proof.
  unfold compute_ranking.
  destruct (peel_enough_fuel (length solutions)
              (first_front comparator solutions)
              (initial_counts comparator solutions)) as (rest & E).
  - unfold initial_counts, indices. rewrite length_map. apply length_seq.
  - intros Hne. pose proof initial_measure as Hm.
    destruct (first_front comparator solutions); [contradiction|].
    simpl in Hm. lia.
  - exists rest. rewrite E. reflexivity.
Qed.

End RankingFacts.

(** Under an irreflexive and transitive domination rule every non-empty
    population has a solution that nothing dominates, so front 0 is not
    empty. *)
Lemma enumerate_In {A : Type} (l : list A) :
  forall (a i : nat) (s : A),
    nth_error l i = Some s ->
    In ((a + i)%nat, s) (combine (seq a (length l)) l).
Proof.
  induction l as [|x l IH]; intros a [|i] s E; simpl in E; try discriminate.
  - injection E as ->. rewrite Nat.add_0_r. left. reflexivity.
  - right. rewrite Nat.add_succ_r. apply (IH (S a) i s E).
Qed.

Section StrictOrder.

Context {Solution : Type}.
Variable comparator : Comparator Solution.
Hypothesis irreflexive : forall a : Solution, dominates comparator a a = false.
Hypothesis transitive :
  forall a b c : Solution,
    dominates comparator a b = true -> dominates comparator b c = true ->
    dominates comparator a c = true.

Lemma minimal_exists (l : list Solution) :
  l <> [] ->
  exists s : Solution,
    In s l /\ forall t : Solution, In t l -> dominates comparator t s = false.
Proof.
  induction l as [|x l IH]; intros Hne; [contradiction|].
  destruct l as [|y l].
  - exists x. split; [left; reflexivity|].
    intros t [<-|[]]. apply irreflexive.
  - destruct (IH ltac:(discriminate)) as (s & Hs & Hmin).
    destruct (dominates comparator x s) eqn:Exs.
    + exists x. split; [left; reflexivity|].
      intros t [<-|Ht]; [apply irreflexive|].
      destruct (dominates comparator t x) eqn:Etx; [|reflexivity].
      rewrite <- (Hmin t Ht). symmetry. eapply transitive; eassumption.
    + exists s. split; [right; exact Hs|].
      intros t [<-|Ht]; [exact Exs | exact (Hmin t Ht)].
Qed.

Lemma non_dominated_nonempty (l : list Solution) :
  l <> [] -> non_dominated comparator l <> [].
Proof.
  intros Hne. destruct (minimal_exists l Hne) as (s & Hs & Hmin).
  destruct (In_nth_error _ _ Hs) as (i & Ei).
  assert (Hin : In s (non_dominated comparator l)).
  { unfold non_dominated. apply in_map_iff. exists (i, s).
    split; [reflexivity|]. apply filter_In. split.
    - apply (enumerate_In l 0 i s Ei).
    - apply negb_true_iff. apply not_true_is_false. intros Hex.
      apply existsb_exists in Hex. destruct Hex as ((j, t) & Hjt & Hd).
      apply andb_true_iff in Hd. destruct Hd as (_ & Hd).
      unfold enumerate in Hjt. apply in_combine_r in Hjt.
      rewrite (Hmin t Hjt) in Hd. discriminate. }
  intros E. rewrite E in Hin. exact Hin.
Qed.

End StrictOrder.

(** ** Result extraction *)

(** C8: [get_result] ranks the current population with the fast
    non-dominated sort and returns front 0 of that ranking, which is the
    list of the solutions of the population that no other solution of the
    population dominates (provided there is such a solution). *)
Theorem get_result_front_0 {Solution : Type} (self : NSGAIII Solution) :
  non_dominated (dominance_comparator self) (solutions self) <> [] ->
  exists ranking : list (list Solution),
    FastNonDominatedRanking.compute_ranking (dominance_comparator self)
                                            (solutions self) = Ok ranking
    /\ nth_error ranking 0
       = Some (non_dominated (dominance_comparator self) (solutions self))
    /\ get_result FastNonDominatedRanking.compute_ranking self
       = Ok (non_dominated (dominance_comparator self) (solutions self)).
Proof.
  intros Hne.
  destruct (compute_ranking_total (dominance_comparator self) (solutions self))
    as (rest & E).
  rewrite <- first_front_non_dominated in *.
  destruct (FastNonDominatedRanking.first_front (dominance_comparator self)
                                                (solutions self))
    as [|p front] eqn:Ef; [contradiction Hne; reflexivity|].
  eexists. split; [exact E|]. split; [reflexivity|].
  unfold get_result. rewrite E. reflexivity.
Qed.

(** ** The single-objective run *)

Import SingleObjective.

Lemma single_objective_init : init (mkProblem 1) comparator = Ok algorithm.
Proof. vm_compute. reflexivity. Qed.

Lemma single_objective_ranking :
  FastNonDominatedRanking.compute_ranking
    (dominance_comparator algorithm) (parents ++ offspring) = Ok fronts.
Proof. vm_compute. reflexivity. Defined.

Lemma single_objective_covered : ranking_covers fronts (parents ++ offspring).
Proof. apply Permutation_refl. Defined.

Lemma single_objective_enough :
  population_size algorithm <= Py.len (parents ++ offspring).
Proof. vm_compute. discriminate. Defined.

Lemma take_first_contract : selection_contract take_first.
Proof.
  intros M refs k front Hk. exists (firstn (Z.to_nat k) front).
  split; [reflexivity|]. split.
  - unfold Py.len in *. rewrite length_firstn. lia.
  - intros x Hx. rewrite <- (firstn_skipn (Z.to_nat k) front).
    apply in_or_app. left. exact Hx.
Defined.

Lemma replacement_size_witness :
  exists survivors : list (list Q),
    fst (run_replacement parents offspring) = Ok survivors
    /\ Py.len survivors = population_size algorithm.
Proof.
  apply (replacement_size
           FastNonDominatedRanking.compute_ranking take_first algorithm
           parents offspring fronts
           single_objective_ranking single_objective_covered
           single_objective_enough take_first_contract).
  - vm_compute. discriminate.
  - discriminate.
Defined.

Lemma replacement_boundary_front_witness :
  exists (j : nat) (front : list (list Q)),
    let pop := fronts_before fronts j in
    let k := population_size algorithm - Py.len pop in
    nth_error fronts j = Some front
    /\ (forall m : nat, (m < j)%nat ->
          taken_whole (population_size algorithm) fronts m)
    /\ 1 <= k <= Py.len front
    /\ snd (run_replacement parents offspring) = [mkCall k front pop]
    /\ fst (run_replacement parents offspring)
       = (selected <-
            take_first (number_of_objectives (problem algorithm))
                       (reference_points algorithm) k front ;;
          Ok (pop ++ selected)).
Proof.
  apply (replacement_boundary_front
           FastNonDominatedRanking.compute_ranking take_first algorithm
           parents offspring fronts
           single_objective_ranking single_objective_covered
           single_objective_enough).
  vm_compute. discriminate.
Defined.

Lemma replacement_selection_bounds_witness :
  exists call : selection_call (list Q),
    snd (run_replacement parents offspring) = [call]
    /\ 1 <= call_k call <= Py.len (call_front call).
Proof.
  apply (replacement_selection_bounds
           FastNonDominatedRanking.compute_ranking take_first algorithm
           parents offspring fronts
           single_objective_ranking single_objective_covered
           single_objective_enough).
  vm_compute. discriminate.
Defined.

(** C4, as the spec states it, on the populations whose fronts have sizes
    2, 2, 2, 2 with a population size of 4: front 0 is taken whole; front 1
    would fill the two free slots exactly, without overflow, and yet it is
    not taken whole but handed to the selection with k = 2. *)
Lemma replacement_selects_exact_fit :
  run_replacement parents_even offspring_even
  = (Ok [[1]; [1]; [2]; [2]]%Q, [mkCall 2 [[2]; [2]]%Q [[1]; [1]]%Q])
  /\ ~ invoked_only_on_overflow
        (population_size algorithm)
        (snd (run_replacement parents_even offspring_even)).
Proof.
  split; [vm_compute; reflexivity|].
  intros Hall.
  specialize (Hall (mkCall 2 [[2]; [2]]%Q [[1]; [1]]%Q)).
  assert (Hin : In (mkCall 2 [[2]; [2]]%Q [[1]; [1]]%Q)
                   (snd (run_replacement parents_even offspring_even))).
  { vm_compute. left. reflexivity. }
  specialize (Hall Hin). clear Hin. vm_compute in Hall. discriminate Hall.
Qed.

Lemma get_result_front_0_witness :
  exists ranking : list (list (list Q)),
    FastNonDominatedRanking.compute_ranking
      (dominance_comparator evolved) (solutions evolved) = Ok ranking
    /\ nth_error ranking 0
       = Some (non_dominated (dominance_comparator evolved) (solutions evolved))
    /\ get_result FastNonDominatedRanking.compute_ranking evolved
       = Ok (non_dominated (dominance_comparator evolved) (solutions evolved)).
Proof.
  apply get_result_front_0. vm_compute. discriminate.
Defined.

Lemma single_objective_result :
  get_result FastNonDominatedRanking.compute_ranking evolved = Ok [[1]]%Q.
Proof. vm_compute. reflexivity. Qed.

(** * Further properties *)

(** ** The numerators of the generated points *)

Lemma simplex_tails_compositions (total : Z) (d : nat) :
  forall left : Z,
    simplex_tails d left total
    = map (map (fun n => ratio n total)) (compositions d left).
Proof.
  induction d as [|d IH]; intros left; [reflexivity|].
  cbn [simplex_tails compositions].
  induction (Py.range left) as [|i xs IHxs]; [reflexivity|].
  cbn [flat_map]. rewrite map_app, IHxs, IH, !map_map. reflexivity.
Qed.

Lemma Zsum_last (ns : list Z) :
  ns <> [] -> Forall (fun n => 0 <= n) (removelast ns) -> last ns 0 <= Zsum ns.
Proof.
  induction ns as [|n ns IH]; intros Hne Hpos; [contradiction|].
  destruct ns as [|m ns].
  - simpl. lia.
  - change (removelast (n :: m :: ns)) with (n :: removelast (m :: ns)) in Hpos.
    inversion Hpos as [|? ? Hn Hrest]; subst.
    change (last (n :: m :: ns) 0) with (last (m :: ns) 0).
    change (Zsum (n :: m :: ns)) with (n + Zsum (m :: ns)).
    specialize (IH ltac:(discriminate) Hrest). lia.
Qed.

(** Membership in [compositions]: the right number of numerators, the
    right sum, no negative free numerator and, once there is a free one, a
    closing numerator of at least 1. *)
Lemma compositions_In (d : nat) :
  forall (left : Z) (ns : list Z),
    In ns (compositions d left)
    <-> length ns = S d
        /\ Zsum ns = left
        /\ Forall (fun n => 0 <= n) (removelast ns)
        /\ (d <> 0%nat -> 1 <= last ns 0).
Proof.
  induction d as [|d IH]; intros left ns.
  - cbn [compositions]. split.
    + intros [<-|[]]. repeat split; simpl; try lia. constructor.
    + intros (Hlen & Hsum & _ & _). left.
      destruct ns as [|n [|m ns]]; simpl in Hlen; try discriminate.
      unfold Zsum in Hsum. simpl in Hsum. f_equal. lia.
  - cbn [compositions]. rewrite in_flat_map. split.
    + intros (i & Hi & Hns). apply range_In in Hi.
      apply in_map_iff in Hns. destruct Hns as (ns' & <- & Hns').
      apply IH in Hns'. destruct Hns' as (Hlen & Hsum & Hpos & Hlast).
      destruct ns' as [|m ns']; [discriminate|].
      change (removelast (i :: m :: ns')) with (i :: removelast (m :: ns')).
      change (last (i :: m :: ns') 0) with (last (m :: ns') 0).
      change (Zsum (i :: m :: ns')) with (i + Zsum (m :: ns')).
      split; [simpl in *; lia|]. split; [lia|].
      split; [constructor; [lia | exact Hpos]|].
      intros _. destruct d as [|d].
      * destruct ns' as [|? ?]; [|discriminate].
        unfold Zsum in Hsum. simpl in *. lia.
      * apply Hlast. discriminate.
    + intros (Hlen & Hsum & Hpos & Hlast).
      destruct ns as [|i [|m ns']]; try discriminate.
      change (removelast (i :: m :: ns')) with (i :: removelast (m :: ns'))
        in Hpos.
      change (last (i :: m :: ns') 0) with (last (m :: ns') 0) in Hlast.
      change (Zsum (i :: m :: ns')) with (i + Zsum (m :: ns')) in Hsum.
      inversion Hpos as [|? ? Hi Hrest]; subst.
      specialize (Hlast ltac:(discriminate)).
      pose proof (Zsum_last (m :: ns') ltac:(discriminate) Hrest) as Hge.
      exists i. split; [apply range_In; lia|].
      apply in_map. apply IH.
      split; [simpl in *; lia|]. split; [lia|]. split; [exact Hrest|].
      intros _. exact Hlast.
Qed.

Lemma map_NoDup {A B : Type} (f : A -> B) (l : list A) :
  (forall x y : A, f x = f y -> x = y) -> NoDup l -> NoDup (map f l).
Proof.
  intros Hf Hl. induction Hl as [|x l Hx Hl IH]; [constructor|].
  cbn [map]. constructor; [|exact IH].
  intros Hin. apply in_map_iff in Hin. destruct Hin as (y & E & Hy).
  apply Hf in E. subst y. contradiction.
Qed.

Lemma range_NoDup (n : Z) : NoDup (Py.range n).
Proof.
  unfold Py.range. apply map_NoDup; [|apply seq_NoDup].
  intros x y E. lia.
Qed.

Lemma flat_map_cons_NoDup {A : Type} (g : A -> list (list A)) (xs : list A) :
  NoDup xs -> (forall x : A, NoDup (g x)) ->
  NoDup (flat_map (fun x => map (cons x) (g x)) xs).
Proof.
  intros Hxs Hg. induction Hxs as [|x xs Hx Hxs IH]; [constructor|].
  cbn [flat_map]. apply NoDup_app.
  - apply map_NoDup; [|apply Hg].
    intros a b E. injection E as E. exact E.
  - exact IH.
  - intros l Hl Hl'. apply in_map_iff in Hl. destruct Hl as (t & <- & _).
    apply in_flat_map in Hl'. destruct Hl' as (y & Hy & Hl').
    apply in_map_iff in Hl'. destruct Hl' as (t' & E & _).
    injection E as -> _. contradiction.
Qed.

Lemma compositions_NoDup (d : nat) : forall left : Z, NoDup (compositions d left).
Proof.
  induction d as [|d IH]; intros left.
  - repeat constructor. intros [].
  - cbn [compositions].
    apply (flat_map_cons_NoDup (fun i => compositions d (left - i))).
    + apply range_NoDup.
    + intros i. apply IH.
Qed.

Lemma ratio_inj (total a b : Z) :
  total <> 0 -> ratio a total = ratio b total -> a = b.
Proof.
  intros Ht E.
  assert (Hq : (inject_Z a / inject_Z total == inject_Z b / inject_Z total)%Q).
  { rewrite <- !ratio_div. rewrite E. reflexivity. }
  assert (Hnz : ~ (inject_Z total == 0)%Q).
  { unfold Qeq, inject_Z. simpl. lia. }
  assert (Hab : (inject_Z a == inject_Z b)%Q).
  { rewrite <- (Qdiv_mult_l (inject_Z a) (inject_Z total) Hnz).
    rewrite <- (Qdiv_mult_l (inject_Z b) (inject_Z total) Hnz).
    unfold Qdiv in *. 
    rewrite <- !Qmult_assoc, (Qmult_comm (inject_Z total)), !Qmult_assoc.
    rewrite Hq. reflexivity. }
  unfold Qeq, inject_Z in Hab. simpl in Hab. lia.
Qed.

Lemma map_ratio_inj (total : Z) (ns ms : list Z) :
  total <> 0 ->
  map (fun n => ratio n total) ns = map (fun n => ratio n total) ms ->
  ns = ms.
Proof.
  intros Ht. revert ms.
  induction ns as [|n ns IH]; intros [|m ms] E; simpl in E; try discriminate.
  - reflexivity.
  - injection E as En Ens. f_equal; [eapply ratio_inj; eassumption | auto].
Qed.

Lemma simplex_tails_NoDup (total : Z) (d : nat) (left : Z) :
  total <> 0 -> NoDup (simplex_tails d left total).
Proof.
  intros Ht. rewrite simplex_tails_compositions.
  apply map_NoDup; [|apply compositions_NoDup].
  intros ns ms E. eapply map_ratio_inj; eassumption.
Qed.

Lemma Forall_removelast_last (P : Z -> Prop) (ns : list Z) :
  ns <> [] ->
  (Forall P ns <-> Forall P (removelast ns) /\ P (last ns 0)).
Proof.
  intros Hne.
  rewrite (app_removelast_last 0 Hne) at 1.
  rewrite Forall_app. split.
  - intros (Hr & Hl). inversion Hl; subst. auto.
  - intros (Hr & Hl). split; [exact Hr | repeat constructor; exact Hl].
Qed.

Lemma binomial_pos (n : nat) : forall k : nat, (k <= n)%nat -> (1 <= binomial n k)%nat.
Proof.
  induction n as [|n IH]; intros [|k] Hk; simpl; try lia.
  specialize (IH k ltac:(lia)). lia.
Qed.

(** Negative objectives with negative divisions: the loop runs, and its
    first assignment finds the position list empty. *)
Lemma generate_reference_points_empty_position (M H : Z) :
  M < 0 -> H < 0 -> generate_reference_points M H = Raise IndexError.
Proof.
  intros HM HH. unfold generate_reference_points. cbn [gen_refs_recursive].
  destruct (Z.eqb_spec 0 (M - 1)); [lia|].
  unfold Py.range.
  destruct (Z.to_nat (M * H)) as [|k] eqn:Ek; [nia|].
  cbn [seq map Py.for_each].
  unfold Py.truediv. destruct (Z.eqb_spec (M * H) 0); [nia|].
  cbn [bind].
  unfold Py.replicate. replace (Z.to_nat M) with 0%nat by lia.
  reflexivity.
Qed.

Lemma ratio_self_1 (a : Z) : a <> 0 -> ratio a a = 1%Q.
Proof.
  intros Ha. unfold ratio.
  change 1%Q with (Qred 1). apply Qred_complete.
  apply Qmult_inv_r. unfold Qeq, inject_Z. simpl. lia.
Qed.

Lemma quotients_of_map (total : Z) (ns : list Z) :
  total <> 0 -> quotients_of total ns (map (fun n => ratio n total) ns).
Proof.
  intros Ht. unfold quotients_of.
  induction ns as [|n ns IH]; cbn [map]; constructor.
  - apply truediv_Ok. exact Ht.
  - exact IH.
Qed.

(** C2, amended: for M >= 1 objectives and H >= 1 divisions per objective,
    every generated point has M coordinates, the i-th being the quotient
    n_i / (M*H) that the division returns for a non-negative integer n_i,
    and the numerators n_i of a point add up to exactly M*H. *)
Theorem generate_reference_points_numerators (M H : Z) :
  1 <= M -> 1 <= H ->
  exists res : list ReferencePoint,
    generate_reference_points M H = Ok res
    /\ forall p : list Q, In p (points res) ->
         exists ns : list Z,
           Py.len ns = M
           /\ Forall (fun n => 0 <= n) ns
           /\ Zsum ns = M * H
           /\ quotients_of (M * H) ns p.
Proof.
  intros HM HH. eexists. split.
  - apply generate_reference_points_lattice; nia.
  - rewrite points_of_lattice, simplex_tails_compositions.
    intros p Hp. apply in_map_iff in Hp. destruct Hp as (ns & <- & Hns).
    apply compositions_In in Hns.
    destruct Hns as (Hlen & Hsum & Hpos & Hlast).
    assert (Hne : ns <> []) by (destruct ns; simpl in Hlen; congruence).
    assert (Hl : 0 <= last ns 0).
    { destruct (Z.to_nat (M - 1)) as [|d] eqn:Ed.
      - destruct ns as [|n [|m ns]]; simpl in Hlen; try discriminate.
        unfold Zsum in Hsum. simpl in *. nia.
      - specialize (Hlast ltac:(discriminate)). lia. }
    exists ns. split; [unfold Py.len; lia|].
    split; [apply Forall_removelast_last; [exact Hne | split; assumption]|].
    split; [exact Hsum|]. apply quotients_of_map. nia.
Qed.

Lemma generate_reference_points_numerators_witness :
  exists res : list ReferencePoint,
    generate_reference_points 2 4 = Ok res
    /\ forall p : list Q, In p (points res) ->
         exists ns : list Z,
           Py.len ns = 2
           /\ Forall (fun n => 0 <= n) ns
           /\ Zsum ns = 2 * 4
           /\ quotients_of (2 * 4) ns p.
Proof. apply generate_reference_points_numerators; lia. Defined.

(** ** Further properties of the reference point generator *)

(** X1: for M >= 1 and H >= 1 the generated points are exactly the vectors
    (n_1, ..., n_M) / (M*H) with non-negative integers n_i that add up to
    M*H and n_M >= 1: nothing else is returned and none of them is
    missing. *)
Theorem generate_reference_points_exactly_lattice (M H : Z) :
  1 <= M -> 1 <= H ->
  exists res : list ReferencePoint,
    generate_reference_points M H = Ok res
    /\ forall p : list Q, In p (points res) <-> lattice_point M H p.
Proof.
  intros HM HH. eexists. split.
  - apply generate_reference_points_lattice; nia.
  - intros p. rewrite points_of_lattice, simplex_tails_compositions.
    rewrite in_map_iff. unfold lattice_point. split.
    + intros (ns & <- & Hns). apply compositions_In in Hns.
      destruct Hns as (Hlen & Hsum & Hpos & Hlast).
      assert (Hne : ns <> []) by (destruct ns; simpl in Hlen; congruence).
      assert (Hl : 1 <= last ns 0).
      { destruct (Z.to_nat (M - 1)) as [|d] eqn:Ed.
        - destruct ns as [|n [|m ns]]; simpl in Hlen; try discriminate.
          unfold Zsum in Hsum. simpl in *. nia.
        - apply Hlast. discriminate. }
      exists ns. split; [unfold Py.len; lia|].
      split; [apply Forall_removelast_last; [exact Hne|split; [exact Hpos|lia]]|].
      split; [exact Hl|]. split; [exact Hsum | reflexivity].
    + intros (ns & Hlen & Hpos & Hl & Hsum & ->).
      exists ns. split; [reflexivity|]. apply compositions_In.
      assert (Hne : ns <> [])
        by (destruct ns; unfold Py.len in Hlen; simpl in Hlen; [lia|discriminate]).
      split; [unfold Py.len in Hlen; lia|]. split; [exact Hsum|].
      split; [apply Forall_removelast_last in Hpos; tauto|].
      intros _. exact Hl.
Qed.

Lemma generate_reference_points_exactly_lattice_witness :
  exists res : list ReferencePoint,
    generate_reference_points 2 4 = Ok res
    /\ forall p : list Q, In p (points res) <-> lattice_point 2 4 p.
Proof. apply generate_reference_points_exactly_lattice; lia. Defined.

(** X2: for M >= 1 and H >= 1 no point is generated twice. *)
Theorem generate_reference_points_distinct (M H : Z) :
  1 <= M -> 1 <= H ->
  exists res : list ReferencePoint,
    generate_reference_points M H = Ok res /\ NoDup (points res).
Proof.
  intros HM HH. eexists. split.
  - apply generate_reference_points_lattice; nia.
  - rewrite points_of_lattice. apply simplex_tails_NoDup. nia.
Qed.

Lemma generate_reference_points_distinct_witness :
  exists res : list ReferencePoint,
    generate_reference_points 3 4 = Ok res /\ NoDup (points res).
Proof. apply generate_reference_points_distinct; lia. Defined.

(** X3: with a single objective the generator returns the one point [1.0]
    for every non-zero number of divisions, negative ones included, and
    raises [ZeroDivisionError] for zero divisions. *)
Theorem generate_reference_points_one_objective (H : Z) :
  generate_reference_points 1 H
  = if H =? 0 then Raise ZeroDivisionError
    else Ok [mkReferencePoint [1%Q]].
Proof.
  destruct (Z.eqb_spec H 0) as [->|Hne].
  - vm_compute. reflexivity.
  - rewrite generate_reference_points_lattice by lia.
    change (Z.to_nat (1 - 1)) with 0%nat. cbn [simplex_tails map].
    rewrite ratio_self_1 by lia. reflexivity.
Qed.

(** X4: whenever the generator returns, its result is empty exactly when
    the number of objectives is not 1 and M*H <= 0 (no objectives, or at
    least two objectives with no or negative divisions); zero divisions
    then cause no division by zero. *)
Theorem generate_reference_points_empty_iff
        (M H : Z) (res : list ReferencePoint) :
  generate_reference_points M H = Ok res ->
  (res = [] <-> M <> 1 /\ M * H <= 0).
Proof.
  intros E.
  destruct (Z.eq_dec M 1) as [->|HM1].
  - destruct (Z.eq_dec H 0) as [->|HH0].
    + rewrite generate_reference_points_zero_division in E. discriminate E.
    + rewrite generate_reference_points_lattice in E by lia.
      injection E as <-. change (Z.to_nat (1 - 1)) with 0%nat.
      cbn [simplex_tails map]. split; [discriminate | lia].
  - destruct (Z_le_gt_dec (M * H) 0) as [Hle|Hgt].
    + rewrite generate_reference_points_no_divisions in E by assumption.
      injection E as <-. split; [auto | reflexivity].
    + destruct (Z_le_gt_dec 1 M) as [Hpos|Hneg].
      * rewrite generate_reference_points_lattice in E by lia.
        injection E as <-. split; [|lia].
        intros Hnil. apply (f_equal (@length _)) in Hnil.
        rewrite length_map, simplex_tails_length in Hnil.
        assert (Hk : (Z.to_nat (M - 1)
                      <= Z.to_nat (M * H) + Z.to_nat (M - 1) - 1)%nat)
          by lia.
        apply binomial_pos in Hk. simpl in Hnil. lia.
      * assert (HM : M < 0)
          by (destruct (Z.eq_dec M 0) as [->|]; lia).
        assert (HH : H < 0) by nia.
        rewrite generate_reference_points_empty_position in E by assumption.
        discriminate E.
Qed.

Lemma generate_reference_points_empty_iff_witness :
  generate_reference_points 2 0 = Ok []
  /\ (@nil ReferencePoint = [] <-> 2 <> 1 /\ 2 * 0 <= 0).
Proof.
  split; [vm_compute; reflexivity|].
  apply (generate_reference_points_empty_iff 2 0 []).
  vm_compute. reflexivity.
Defined.

(** X5: the generator raises in two cases only: one objective with zero
    divisions ([ZeroDivisionError]), and a negative number of objectives
    with a negative number of divisions ([IndexError]). *)
Theorem generate_reference_points_raises_iff (M H : Z) (e : exn) :
  generate_reference_points M H = Raise e
  <-> (M = 1 /\ H = 0 /\ e = ZeroDivisionError)
      \/ (M < 0 /\ H < 0 /\ e = IndexError).
Proof.
  split.
  - intros E.
    destruct (Z_le_gt_dec 1 M) as [Hpos|Hneg].
    + destruct (Z.eq_dec (M * H) 0) as [E0|Hne].
      * destruct (Z.eq_dec M 1) as [->|HM1].
        -- assert (H = 0) by lia. subst H.
           rewrite generate_reference_points_zero_division in E.
           injection E as <-. left. auto.
        -- rewrite generate_reference_points_no_divisions in E by lia.
           discriminate E.
      * rewrite generate_reference_points_lattice in E by assumption.
        discriminate E.
    + destruct (Z_le_gt_dec (M * H) 0) as [Hle|Hgt].
      * rewrite generate_reference_points_no_divisions in E by lia.
        discriminate E.
      * assert (HM : M < 0)
          by (destruct (Z.eq_dec M 0) as [->|]; lia).
        assert (HH : H < 0) by nia.
        rewrite generate_reference_points_empty_position in E by assumption.
        injection E as <-. right. auto.
  - intros [(-> & -> & ->)|(HM & HH & ->)].
    + apply generate_reference_points_zero_division.
    + apply generate_reference_points_empty_position; assumption.
Qed.

Lemma generate_reference_points_raises_iff_witness :
  generate_reference_points (-2) (-3) = Raise IndexError.
Proof.
  apply generate_reference_points_raises_iff. right. repeat split; lia.
Defined.

(** ** Further properties of construction *)

(** X6: for a problem with M >= 1 objectives construction stores
    C(5M - 2, M - 1) reference points, and the population size is
    4 * ceil(count / 4), hence at least 4. *)
Theorem init_with_objectives {Solution : Type}
        (problem0 : Problem) (comparator : Comparator Solution) :
  1 <= number_of_objectives problem0 ->
  exists self : NSGAIII Solution,
    init problem0 comparator = Ok self
    /\ length (reference_points self)
       = binomial (Z.to_nat (5 * number_of_objectives problem0 - 2))
                  (Z.to_nat (number_of_objectives problem0 - 1))
    /\ population_size self = 4 * ((Py.len (reference_points self) + 3) / 4)
    /\ 4 <= population_size self.
Proof.
  intros HM. unfold init, default_num_divisions_per_obj.
  rewrite generate_reference_points_lattice by lia. rewrite bind_Ok.
  rewrite pad_to_multiple_of_4_fuel by lia. rewrite bind_Ok.
  eexists. split; [reflexivity|].
  cbn [reference_points population_size].
  set (M := number_of_objectives problem0) in *.
  set (pts := map mkReferencePoint
                  (simplex_tails (Z.to_nat (M - 1)) (M * 4) (M * 4))).
  assert (Hcount : length pts
                   = binomial (Z.to_nat (5 * M - 2)) (Z.to_nat (M - 1))).
  { unfold pts. rewrite length_map, simplex_tails_length. f_equal. lia. }
  assert (Hpos : (1 <= length pts)%nat).
  { rewrite Hcount. apply binomial_pos. lia. }
  split; [exact Hcount|]. unfold Py.len. split; mod_lia.
Qed.

Lemma init_with_objectives_witness :
  exists self : NSGAIII (list Q),
    init (mkProblem 2) SingleObjective.comparator = Ok self
    /\ length (reference_points self)
       = binomial (Z.to_nat (5 * 2 - 2)) (Z.to_nat (2 - 1))
    /\ population_size self = 4 * ((Py.len (reference_points self) + 3) / 4)
    /\ 4 <= population_size self.
Proof.
  apply (init_with_objectives (mkProblem 2) SingleObjective.comparator).
  simpl. lia.
Defined.

(** X7: for a problem with no (or a negative number of) objectives
    construction does not fail: it stores no reference point and sets both
    sizes to 0. *)
Theorem init_without_objectives {Solution : Type}
        (problem0 : Problem) (comparator : Comparator Solution) :
  number_of_objectives problem0 <= 0 ->
  init problem0 comparator
  = Ok {| problem := problem0;
          dominance_comparator := comparator;
          reference_points := [];
          population_size := 0;
          offspring_population_size := 0;
          solutions := [] |}.
Proof.
  intros HM. unfold init, default_num_divisions_per_obj.
  rewrite generate_reference_points_no_divisions by lia.
  reflexivity.
Qed.

Lemma init_without_objectives_witness :
  init (mkProblem 0) SingleObjective.comparator = Ok NoObjective.algorithm.
Proof.
  apply (init_without_objectives (mkProblem 0) SingleObjective.comparator).
  simpl. lia.
Defined.

(** ** Further properties of the replacement policy *)

Lemma concat_split_nth {A : Type} (l : list (list A)) :
  forall (j : nat) (f : list A),
    nth_error l j = Some f ->
    concat l = concat (firstn j l) ++ f ++ concat (skipn (S j) l).
Proof.
  induction l as [|h t IH]; intros [|j] f E; simpl in E; try discriminate.
  - injection E as ->. reflexivity.
  - change (firstn (S j) (h :: t)) with (h :: firstn j t).
    change (skipn (S (S j)) (h :: t)) with (skipn (S j) t).
    cbn [concat]. rewrite (IH _ _ E), <- app_assoc. reflexivity.
Qed.

Lemma firstn_le_split {A : Type} (a : nat) :
  forall (b : nat) (l : list A),
    (a <= b)%nat -> firstn b l = firstn a l ++ firstn (b - a) (skipn a l).
Proof.
  induction a as [|a IH]; intros b l Hab.
  - rewrite Nat.sub_0_r. reflexivity.
  - destruct b as [|b]; [lia|]. destruct l as [|x l].
    + cbn [firstn skipn app]. rewrite firstn_nil. reflexivity.
    + cbn [firstn skipn app Nat.sub]. f_equal. apply IH. lia.
Qed.

Lemma fronts_before_le {Solution : Type} (ranking : list (list Solution))
      (a b : nat) :
  (a <= b)%nat ->
  exists later : list Solution,
    fronts_before ranking b = fronts_before ranking a ++ later.
Proof.
  intros Hab. unfold fronts_before.
  rewrite (firstn_le_split a b ranking Hab), concat_app.
  eexists. reflexivity.
Qed.

Lemma take_first_draws : selection_draws SingleObjective.take_first.
Proof.
  intros M refs k front Hk.
  exists (firstn (Z.to_nat k) front), (skipn (Z.to_nat k) front).
  split; [reflexivity|]. split.
  - unfold Py.len in *. rewrite length_firstn. lia.
  - rewrite firstn_skipn. apply Permutation_refl.
Defined.

Section ReplacementOutcome.

Context {Solution : Type}.
Variable compute_ranking :
  Comparator Solution -> list Solution -> outcome (list (list Solution)).
Variable execute :
  Z -> list ReferencePoint -> Z -> list Solution -> outcome (list Solution).
Variable self : NSGAIII Solution.
Variables population offspring_population : list Solution.
Variable ranking : list (list Solution).

Hypothesis ranked :
  compute_ranking (dominance_comparator self)
                  (population ++ offspring_population) = Ok ranking.
Hypothesis covered :
  ranking_covers ranking (population ++ offspring_population).
Hypothesis enough :
  population_size self <= Py.len (population ++ offspring_population).

(** X8: with a selection that draws without repetition, the survivors
    together with some list of discarded solutions are a rearrangement of
    the combined population: replacement neither repeats nor invents a
    solution. *)
Theorem replacement_partitions :
  selection_draws execute ->
  1 <= population_size self ->
  exists survivors discarded : list Solution,
    fst (replacement compute_ranking execute self
                     population offspring_population) = Ok survivors
    /\ Permutation (survivors ++ discarded)
                   (population ++ offspring_population).
Proof.
  intros Hsel HP.
  destruct (replacement_unfold compute_ranking execute self population
              offspring_population ranking ranked covered enough HP)
    as (j & front & Ej & _ & Hfree & Hfit & E).
  destruct (Hsel (number_of_objectives (problem self)) (reference_points self)
                 (population_size self - Py.len (fronts_before ranking j))
                 front)
    as (selected & left_out & Esel & _ & Hperm); [lia|].
  rewrite E, Esel. cbn [fst bind].
  exists (fronts_before ranking j ++ selected),
         (left_out ++ concat (skipn (S j) ranking)).
  split; [reflexivity|].
  eapply Permutation_trans; [|exact covered].
  rewrite (concat_split_nth ranking j front Ej).
  fold (fronts_before ranking j).
  rewrite <- app_assoc. apply Permutation_app_head.
  rewrite app_assoc. apply Permutation_app_tail. exact Hperm.
Qed.

(** X9: whenever replacement returns, the first n fronts, if together they
    hold fewer solutions than the population size, open the new population
    whole and in rank order, whatever the selection does. *)
Theorem replacement_keeps_whole_fronts (n : nat) (survivors : list Solution) :
  1 <= population_size self ->
  Py.len (fronts_before ranking n) < population_size self ->
  fst (replacement compute_ranking execute self
                   population offspring_population) = Ok survivors ->
  exists rest : list Solution, survivors = fronts_before ranking n ++ rest.
Proof.
  intros HP Hn Hres.
  destruct (replacement_unfold compute_ranking execute self population
              offspring_population ranking ranked covered enough HP)
    as (j & front & Ej & _ & Hfree & Hfit & E).
  rewrite E in Hres. cbn [fst] in Hres.
  destruct (execute (number_of_objectives (problem self))
                    (reference_points self)
                    (population_size self - Py.len (fronts_before ranking j))
                    front) as [selected| |]; cbn [bind] in Hres;
    try discriminate Hres.
  injection Hres as <-.
  destruct (Nat.le_gt_cases n j) as [Hle|Hgt].
  - destruct (fronts_before_le ranking n j Hle) as (later & ->).
    exists (later ++ selected). rewrite <- app_assoc. reflexivity.
  - exfalso.
    destruct (fronts_before_le ranking (S j) n Hgt) as (later & El).
    unfold fronts_before in El at 2.
    rewrite (concat_firstn_S ranking j front Ej) in El.
    fold (fronts_before ranking j) in El.
    rewrite El, !len_app in Hn. pose proof (len_nonneg later). lia.
Qed.

(** X11: if the first n fronts together hold exactly [population_size]
    solutions and the selection draws without repetition, the survivors are
    a rearrangement of those n fronts: handing the front that fits exactly
    to the selection loses nothing. *)
Theorem replacement_exact_fit (n : nat) :
  selection_draws execute ->
  1 <= population_size self ->
  Py.len (fronts_before ranking n) = population_size self ->
  exists survivors : list Solution,
    fst (replacement compute_ranking execute self
                     population offspring_population) = Ok survivors
    /\ Permutation survivors (fronts_before ranking n).
Proof.
  intros Hsel HP Hn.
  destruct (replacement_unfold compute_ranking execute self population
              offspring_population ranking ranked covered enough HP)
    as (j & front & Ej & _ & Hfree & Hfit & E).
  destruct (Hsel (number_of_objectives (problem self)) (reference_points self)
                 (population_size self - Py.len (fronts_before ranking j))
                 front)
    as (selected & left_out & Esel & Hlen & Hperm); [lia|].
  rewrite E, Esel. cbn [fst bind].
  exists (fronts_before ranking j ++ selected). split; [reflexivity|].
  assert (Hjn : (S j <= n)%nat).
  { destruct (Nat.le_gt_cases n j) as [Hle|Hgt]; [|exact Hgt].
    destruct (fronts_before_le ranking n j Hle) as (later & El).
    rewrite El, len_app in Hfree. pose proof (len_nonneg later). lia. }
  destruct (fronts_before_le ranking (S j) n Hjn) as (later & El).
  unfold fronts_before in El at 2.
  rewrite (concat_firstn_S ranking j front Ej) in El.
  fold (fronts_before ranking j) in El.
  assert (Hsizes : Py.len later = 0 /\ Py.len left_out = 0).
  { pose proof (Permutation_length Hperm) as Hpl.
    rewrite length_app in Hpl.
    rewrite El, !len_app in Hn.
    pose proof (len_nonneg later). pose proof (len_nonneg left_out).
    unfold Py.len in *. lia. }
  destruct Hsizes as (Hlater & Hleft).
  destruct later; [|unfold Py.len in Hlater; simpl in Hlater; lia].
  destruct left_out; [|unfold Py.len in Hleft; simpl in Hleft; lia].
  rewrite El, !app_nil_r in *. apply Permutation_app_head. exact Hperm.
Qed.

End ReplacementOutcome.

(** X10: with a population size of 0 or less the loop does not run: no front
    is accumulated, and the first front goes to the selection with k equal
    to that population size; what the selection returns is the result. *)
Theorem replacement_without_slots {Solution : Type}
        (compute_ranking :
           Comparator Solution -> list Solution -> outcome (list (list Solution)))
        (execute :
           Z -> list ReferencePoint -> Z -> list Solution -> outcome (list Solution))
        (self : NSGAIII Solution)
        (population offspring_population front : list Solution)
        (later : list (list Solution)) :
  compute_ranking (dominance_comparator self)
                  (population ++ offspring_population) = Ok (front :: later) ->
  population_size self <= 0 ->
  replacement compute_ranking execute self population offspring_population
  = (selected <-
       execute (number_of_objectives (problem self)) (reference_points self)
               (population_size self) front ;;
     Ok selected,
     [mkCall (population_size self) front []]).
Proof.
  intros Hrank HP. unfold replacement. rewrite Hrank.
  cbn [length accumulate_fronts].
  change (Py.len (@nil Solution)) with 0.
  destruct (Z.ltb_spec 0 (population_size self)); [lia|].
  rewrite Z.sub_0_r. reflexivity.
Qed.

(** ** The single-objective run, continued *)

Lemma single_objective_even_ranking :
  FastNonDominatedRanking.compute_ranking
    (dominance_comparator algorithm) (parents_even ++ offspring_even)
  = Ok fronts_even.
Proof. vm_compute. reflexivity. Defined.

Lemma single_objective_even_covered :
  ranking_covers fronts_even (parents_even ++ offspring_even).
Proof. apply Permutation_refl. Defined.

Lemma single_objective_even_enough :
  population_size algorithm <= Py.len (parents_even ++ offspring_even).
Proof. vm_compute. discriminate. Defined.

Lemma replacement_partitions_witness :
  exists survivors discarded : list (list Q),
    fst (run_replacement parents offspring) = Ok survivors
    /\ Permutation (survivors ++ discarded) (parents ++ offspring).
Proof.
  apply (replacement_partitions
           FastNonDominatedRanking.compute_ranking take_first algorithm
           parents offspring fronts
           single_objective_ranking single_objective_covered
           single_objective_enough take_first_draws).
  vm_compute. discriminate.
Defined.

Lemma replacement_keeps_whole_fronts_witness :
  exists rest : list (list Q),
    [[1]; [2]; [2]; [2]]%Q = fronts_before fronts 1 ++ rest.
Proof.
  apply (replacement_keeps_whole_fronts
           FastNonDominatedRanking.compute_ranking take_first algorithm
           parents offspring fronts
           single_objective_ranking single_objective_covered
           single_objective_enough 1%nat).
  - vm_compute. discriminate.
  - vm_compute. reflexivity.
  - vm_compute. reflexivity.
Defined.

Lemma replacement_exact_fit_witness :
  exists survivors : list (list Q),
    fst (run_replacement parents_even offspring_even) = Ok survivors
    /\ Permutation survivors (fronts_before fronts_even 2).
Proof.
  apply (replacement_exact_fit
           FastNonDominatedRanking.compute_ranking take_first algorithm
           parents_even offspring_even fronts_even
           single_objective_even_ranking single_objective_even_covered
           single_objective_even_enough 2%nat take_first_draws).
  - vm_compute. discriminate.
  - vm_compute. reflexivity.
Defined.

Lemma replacement_without_slots_witness :
  replacement FastNonDominatedRanking.compute_ranking take_first
              NoObjective.algorithm [[]] [[]]
  = (selected <-
       take_first (number_of_objectives (problem NoObjective.algorithm))
                  (reference_points NoObjective.algorithm)
                  (population_size NoObjective.algorithm) [[]; []] ;;
     Ok selected,
     [mkCall (population_size NoObjective.algorithm) [[]; []] []]).
Proof.
  apply (replacement_without_slots
           FastNonDominatedRanking.compute_ranking take_first
           NoObjective.algorithm [[]] [[]] [[]; []] []).
  - vm_compute. reflexivity.
  - vm_compute. discriminate.
Defined.

(** ** Replacement with too few solutions, and after construction *)

Lemma get_subfront_past_end {Solution : Type} (ranking : list (list Solution)) :
  get_subfront ranking (Py.len ranking) = Raise (InvalidRank (Py.len ranking)).
Proof.
  unfold get_subfront.
  destruct (Z.ltb_spec (Py.len ranking) (Py.len ranking)); [lia|].
  rewrite andb_false_r. reflexivity.
Qed.

(** When the ranking holds fewer solutions than the population size, every
    front is taken whole and the loop asks for a front past the last. *)
Lemma accumulate_fronts_short {Solution : Type}
      (P : Z) (ranking : list (list Solution)) :
  Py.len (concat ranking) < P ->
  forall (fuel i : nat),
    (i <= length ranking)%nat ->
    (length ranking - i <= fuel)%nat ->
    accumulate_fronts fuel P ranking (Z.of_nat i) (fronts_before ranking i)
    = Raise (InvalidRank (Py.len ranking)).
Proof.
  intros Hshort.
  assert (Hbefore : forall i : nat, Py.len (fronts_before ranking i) < P).
  { intros i. destruct (Nat.le_gt_cases i (length ranking)) as [Hi|Hi].
    - destruct (fronts_before_le ranking i (length ranking) Hi) as (later & El).
      unfold fronts_before in El at 1. rewrite firstn_all in El.
      rewrite El, len_app in Hshort. pose proof (len_nonneg later). lia.
    - unfold fronts_before. rewrite firstn_all2 by lia. exact Hshort. }
  induction fuel as [|fuel IH]; intros i Hi Hfuel.
  - assert (i = length ranking) by lia. subst i.
    cbn [accumulate_fronts].
    destruct (Z.ltb_spec (Py.len (fronts_before ranking (length ranking))) P);
      [|specialize (Hbefore (length ranking)); lia].
    change (Z.of_nat (length ranking)) with (Py.len ranking).
    rewrite get_subfront_past_end. reflexivity.
  - cbn [accumulate_fronts].
    destruct (Z.ltb_spec (Py.len (fronts_before ranking i)) P);
      [|specialize (Hbefore i); lia].
    destruct (nth_error ranking i) as [front|] eqn:E.
    + rewrite (get_subfront_Ok _ _ _ E), bind_Ok.
      assert (Hnext : fronts_before ranking (S i)
                      = fronts_before ranking i ++ front)
        by (apply concat_firstn_S; exact E).
      pose proof (Hbefore (S i)) as HS. rewrite Hnext, len_app in HS.
      destruct (Z.ltb_spec (Py.len front)
                           (P - Py.len (fronts_before ranking i))); [|lia].
      rewrite <- Hnext.
      replace (Z.of_nat i + 1) with (Z.of_nat (S i)) by lia.
      assert (i < length ranking)%nat by (apply nth_error_Some; congruence).
      apply IH; lia.
    + apply nth_error_None in E. assert (i = length ranking) by lia. subst i.
      change (Z.of_nat (length ranking)) with (Py.len ranking).
      rewrite get_subfront_past_end. reflexivity.
Qed.

(** X12: when the combined population has fewer solutions than
    [population_size], replacement returns no population at all: every
    front is taken whole, the request for the next front fails, and the
    selection is never executed. *)
Theorem replacement_too_few
        {Solution : Type}
        (compute_ranking :
           Comparator Solution -> list Solution -> outcome (list (list Solution)))
        (execute :
           Z -> list ReferencePoint -> Z -> list Solution -> outcome (list Solution))
        (self : NSGAIII Solution)
        (population offspring_population : list Solution)
        (ranking : list (list Solution)) :
  compute_ranking (dominance_comparator self)
                  (population ++ offspring_population) = Ok ranking ->
  ranking_covers ranking (population ++ offspring_population) ->
  Py.len (population ++ offspring_population) < population_size self ->
  replacement compute_ranking execute self population offspring_population
  = (Raise (InvalidRank (Py.len ranking)), []).
Proof.
  intros Hrank Hcov Hfew. unfold replacement. rewrite Hrank.
  assert (Hshort : Py.len (concat ranking) < population_size self).
  { unfold Py.len in *. rewrite (Permutation_length Hcov). exact Hfew. }
  pose proof (accumulate_fronts_short (population_size self) ranking Hshort
                (length ranking) 0%nat ltac:(lia) ltac:(lia)) as E.
  change (fronts_before ranking 0) with (@nil Solution) in E.
  change (Z.of_nat 0) with 0 in E.
  rewrite E. reflexivity.
Qed.

Lemma replacement_too_few_witness :
  replacement FastNonDominatedRanking.compute_ranking take_first algorithm
              [[1]; [2]]%Q [[3]]%Q
  = (Raise (InvalidRank (Py.len [[[1]]; [[2]]; [[3]]]%Q)), []).
Proof.
  apply (replacement_too_few
           FastNonDominatedRanking.compute_ranking take_first algorithm
           [[1]; [2]]%Q [[3]]%Q [[[1]]; [[2]]; [[3]]]%Q).
  - vm_compute. reflexivity.
  - apply Permutation_refl.
  - vm_compute. reflexivity.
Defined.

(** What construction builds for a problem with at least one objective. *)
Lemma init_result {Solution : Type}
      (problem0 : Problem) (comparator : Comparator Solution)
      (self : NSGAIII Solution) :
  1 <= number_of_objectives problem0 ->
  init problem0 comparator = Ok self ->
  problem self = problem0
  /\ 4 <= population_size self
  /\ population_size self mod 4 = 0.
Proof.
  intros HM. unfold init, default_num_divisions_per_obj.
  rewrite generate_reference_points_lattice by lia. rewrite bind_Ok.
  rewrite pad_to_multiple_of_4_fuel by lia. rewrite bind_Ok.
  intros E. injection E as <-. cbn [problem population_size].
  set (M := number_of_objectives problem0) in *.
  set (pts := map mkReferencePoint
                  (simplex_tails (Z.to_nat (M - 1)) (M * 4) (M * 4))).
  assert (Hpos : (1 <= length pts)%nat).
  { unfold pts. rewrite length_map, simplex_tails_length.
    apply binomial_pos. lia. }
  split; [reflexivity|]. unfold Py.len. split; mod_lia.
Qed.

(** X13: an algorithm constructed for a problem with at least one objective
    has a population size that is a positive multiple of 4, so on any
    combined population of at least that size (ranking covering it,
    selection meeting its contract) replacement returns exactly
    [population_size] solutions. *)
Theorem replacement_after_init
        {Solution : Type}
        (compute_ranking :
           Comparator Solution -> list Solution -> outcome (list (list Solution)))
        (execute :
           Z -> list ReferencePoint -> Z -> list Solution -> outcome (list Solution))
        (problem0 : Problem) (comparator : Comparator Solution)
        (self : NSGAIII Solution)
        (population offspring_population : list Solution)
        (ranking : list (list Solution)) :
  1 <= number_of_objectives problem0 ->
  init problem0 comparator = Ok self ->
  compute_ranking (dominance_comparator self)
                  (population ++ offspring_population) = Ok ranking ->
  ranking_covers ranking (population ++ offspring_population) ->
  population_size self <= Py.len (population ++ offspring_population) ->
  selection_contract execute ->
  exists survivors : list Solution,
    fst (replacement compute_ranking execute self
                     population offspring_population) = Ok survivors
    /\ Py.len survivors = population_size self
    /\ 4 <= Py.len survivors
    /\ Py.len survivors mod 4 = 0.
Proof.
  intros HM Hinit Hrank Hcov Henough Hsel.
  destruct (init_result problem0 comparator self HM Hinit) as (_ & H4 & Hmod).
  destruct (replacement_unfold compute_ranking execute self population
              offspring_population ranking Hrank Hcov Henough ltac:(lia))
    as (j & front & Ej & _ & Hfree & Hfit & E).
  destruct (Hsel (number_of_objectives (problem self)) (reference_points self)
                 (population_size self - Py.len (fronts_before ranking j))
                 front)
    as (selected & Esel & Hlen & _); [lia|].
  rewrite E, Esel. cbn [fst bind]. eexists. split; [reflexivity|].
  rewrite len_app.
  replace (Py.len (fronts_before ranking j) + Py.len selected)
    with (population_size self) by lia.
  auto.
Qed.

Lemma replacement_after_init_witness :
  exists survivors : list (list Q),
    fst (run_replacement parents offspring) = Ok survivors
    /\ Py.len survivors = population_size algorithm
    /\ 4 <= Py.len survivors
    /\ Py.len survivors mod 4 = 0.
Proof.
  apply (replacement_after_init
           FastNonDominatedRanking.compute_ranking take_first
           (mkProblem 1) comparator algorithm parents offspring fronts).
  - vm_compute. discriminate.
  - vm_compute. reflexivity.
  - exact single_objective_ranking.
  - exact single_objective_covered.
  - exact single_objective_enough.
  - exact take_first_contract.
Defined.

(** ** Result extraction with any ranking *)

(** X14: whatever ranking is plugged in, as long as it covers the current
    population, a result of [get_result] is the first front of that ranking
    and is drawn from the population without repetition: together with the
    solutions it leaves out it is a rearrangement of the population. *)
Theorem get_result_from_population {Solution : Type}
        (compute_ranking :
           Comparator Solution -> list Solution -> outcome (list (list Solution)))
        (self : NSGAIII Solution)
        (ranking : list (list Solution)) (front : list Solution) :
  compute_ranking (dominance_comparator self) (solutions self) = Ok ranking ->
  ranking_covers ranking (solutions self) ->
  get_result compute_ranking self = Ok front ->
  nth_error ranking 0 = Some front
  /\ exists others : list Solution,
       Permutation (front ++ others) (solutions self).
Proof.
  intros Hrank Hcov Hres. unfold get_result in Hres.
  rewrite Hrank, bind_Ok in Hres.
  destruct ranking as [|first later]; [discriminate Hres|].
  assert (E : get_subfront (first :: later) 0 = Ok first)
    by (apply (get_subfront_Ok (first :: later) 0 first); reflexivity).
  rewrite E in Hres. injection Hres as <-.
  split; [reflexivity|]. exists (concat later). exact Hcov.
Qed.

Lemma get_result_from_population_witness :
  nth_error [[[1]]; [[2]; [2]; [2]]]%Q 0 = Some [[1]]%Q
  /\ exists others : list (list Q),
       Permutation ([[1]]%Q ++ others) (solutions evolved).
Proof.
  apply (get_result_from_population
           FastNonDominatedRanking.compute_ranking evolved
           [[[1]]; [[2]; [2]; [2]]]%Q [[1]]%Q).
  - vm_compute. reflexivity.
  - apply Permutation_refl.
  - vm_compute. reflexivity.
Defined.
